(** * zarinpalgo: the response envelope, the status classification and the
      client configuration

    A shallow embedding of [zarinpalgo.go].  Go strings and byte slices are
    byte sequences: both are modelled by [string] (a list of 8-bit [ascii]).
    Go's [int] is taken at its 64-bit width and modelled by [Z]; the only
    places where the width matters are the decoding of a JSON number into an
    [int] field and the [%d] verb, and both are written out.

    The package calls [encoding/json], [fmt], [net/http] and [io].  The
    decoder of [encoding/json] and the verb of [fmt] that the package uses
    are modelled after Go 1.22, the oldest release the workflow of the
    repository tests ([Module json], [Module fmt]); the encoder, the
    transport and the text of a syntax error are parameters ([Platform]). *)

From Stdlib Require Import ZArith List Bool Ascii String Lia.
From Stdlib Require Import DecimalString DecimalZ.
Import ListNotations.

#[local] Set Warnings "-register-all".

Local Open Scope string_scope.
Local Open Scope Z_scope.

(** ** Bytes *)

Definition byte_val (c : ascii) : Z := Z.of_N (N_of_ascii c).
Definition byte_of (z : Z) : ascii := ascii_of_N (Z.to_N z).

(** [between lo c hi]: the byte [c] lies in the closed range [lo..hi]. *)
Definition between (lo : Z) (c : ascii) (hi : Z) : bool :=
  (lo <=? byte_val c) && (byte_val c <=? hi).

Definition dquote : ascii := "034"%char.
Definition backslash : ascii := "\"%char.

(** Test inputs are written with an apostrophe where the JSON text has a
    double quote; [j] puts the double quotes back. *)
Fixpoint j (s : string) : string :=
  match s with
  | EmptyString => EmptyString
  | String c s' => String (if Ascii.eqb c "'" then dquote else c) (j s')
  end.


Fixpoint take (n : nat) (s : string) : string :=
  match n, s with
  | S n', String c s' => String c (take n' s')
  | _, _ => EmptyString
  end.

(** The bytes of [s] that come before its suffix [rest]. *)
Definition consumed (s rest : string) : string :=
  take (String.length s - String.length rest) s.

(** * encoding/json *)

Module json.

(** ** Syntax

    A JSON value as the decoder sees it.  A number keeps its literal and a
    string keeps the text between its quotes, escapes unprocessed; an array
    and an object keep their own text, which is what a [RawMessage] field
    receives. *)
Inductive value : Type :=
| Null
| Bool (b : bool)
| Number (lit : string)
| Str (inner : string)
| Array (raw : string) (elems : list value)
| Object (raw : string) (members : list (string * value)).

(** The text of a value as it stood in the input. *)
Definition raw_of (v : value) : string :=
  match v with
  | Null => "null"
  | Bool true => "true"
  | Bool false => "false"
  | Number lit => lit
  | Str inner => String dquote (inner ++ String dquote "")
  | Array raw _ => raw
  | Object raw _ => raw
  end.

Inductive scan (A : Type) : Type :=
| Scanned (a : A) (rest : string)
| Invalid
| OutOfFuel.
Arguments Scanned {A} a rest.
Arguments Invalid {A}.
Arguments OutOfFuel {A}.

(** scanner.go, [isSpace]. *)
Definition isSpace (c : ascii) : bool :=
  Ascii.eqb c " " || Ascii.eqb c "009" || Ascii.eqb c "013" || Ascii.eqb c "010".

Fixpoint skip_space (s : string) : string :=
  match s with
  | String c s' => if isSpace c then skip_space s' else s
  | EmptyString => s
  end.

Definition isDigit (c : ascii) : bool := between 48 c 57.

Definition isHex (c : ascii) : bool :=
  isDigit c || between 97 c 102 || between 65 c 70.

(** The longest run of digits at the head of [s], and what follows. *)
Fixpoint digits (s : string) : string * string :=
  match s with
  | String c s' =>
      if isDigit c then let (d, r) := digits s' in (String c d, r)
      else (EmptyString, s)
  | EmptyString => (EmptyString, s)
  end.

(** The integer part of a number: [0], or a non-zero digit and more
    digits ([state0], [state1]). *)
Definition scan_int (s : string) : option (string * string) :=
  match s with
  | String c s' =>
      if Ascii.eqb c "0" then Some ("0", s')
      else if isDigit c then let (d, r) := digits s' in Some (String c d, r)
      else None
  | EmptyString => None
  end.

(** An optional fraction: a dot must be followed by a digit ([stateDot]). *)
Definition scan_frac (s : string) : option (string * string) :=
  match s with
  | String c s' =>
      if Ascii.eqb c "." then
        match digits s' with
        | (EmptyString, _) => None
        | (d, r) => Some (String c d, r)
        end
      else Some (EmptyString, s)
  | EmptyString => Some (EmptyString, s)
  end.

(** An optional exponent: [e] or [E], an optional sign, and at least one
    digit ([stateE], [stateESign]). *)
Definition scan_exp (s : string) : option (string * string) :=
  match s with
  | String c s' =>
      if Ascii.eqb c "e" || Ascii.eqb c "E" then
        let (sign, s1) :=
          match s' with
          | String g s'' =>
              if Ascii.eqb g "+" || Ascii.eqb g "-"
              then (String g EmptyString, s'') else (EmptyString, s')
          | EmptyString => (EmptyString, s')
          end in
        match digits s1 with
        | (EmptyString, _) => None
        | (d, r) => Some (String c (sign ++ d), r)
        end
      else Some (EmptyString, s)
  | EmptyString => Some (EmptyString, s)
  end.

Definition scan_number (s : string) : option (string * string) :=
  let (neg, s0) :=
    match s with
    | String c s' => if Ascii.eqb c "-" then ("-", s') else ("", s)
    | EmptyString => ("", s)
    end in
  match scan_int s0 with
  | None => None
  | Some (i, s1) =>
      match scan_frac s1 with
      | None => None
      | Some (f, s2) =>
          match scan_exp s2 with
          | None => None
          | Some (e, s3) => Some (neg ++ i ++ f ++ e, s3)
          end
      end
  end.

(** The characters that may follow a backslash, [u] apart
    ([stateInStringEsc]). *)
Definition isEscape (c : ascii) : bool :=
  Ascii.eqb c "b" || Ascii.eqb c "f" || Ascii.eqb c "n" || Ascii.eqb c "r"
  || Ascii.eqb c "t" || Ascii.eqb c backslash || Ascii.eqb c "/"
  || Ascii.eqb c dquote.

(** The text of a string literal after its opening quote, up to the closing
    quote ([stateInString]): control bytes are refused, an escape is checked,
    every other byte is taken as it is. *)
Fixpoint scan_string (s : string) : option (string * string) :=
  match s with
  | EmptyString => None
  | String c s1 =>
      if Ascii.eqb c dquote then Some (EmptyString, s1)
      else if Ascii.eqb c backslash then
        match s1 with
        | String e s2 =>
            if isEscape e then
              match scan_string s2 with
              | Some (t, r) => Some (String c (String e t), r)
              | None => None
              end
            else if Ascii.eqb e "u" then
              match s2 with
              | String h1 (String h2 (String h3 (String h4 s3))) =>
                  if isHex h1 && isHex h2 && isHex h3 && isHex h4 then
                    match scan_string s3 with
                    | Some (t, r) =>
                        Some (String c (String e (String h1 (String h2
                                (String h3 (String h4 t))))), r)
                    | None => None
                    end
                  else None
              | _ => None
              end
            else None
        | EmptyString => None
        end
      else if byte_val c <? 32 then None
      else
        match scan_string s1 with
        | Some (t, r) => Some (String c t, r)
        | None => None
        end
  end.

(** [prefix p s]: what follows [p] at the head of [s]. *)
Fixpoint prefix (p s : string) : option string :=
  match p, s with
  | EmptyString, _ => Some s
  | String a p', String b s' => if Ascii.eqb a b then prefix p' s' else None
  | String _ _, EmptyString => None
  end.

(** [closes c s]: what follows the bracket [c] when [s] begins with it. *)
Definition closes (c : ascii) (s : string) : option string :=
  match s with
  | String c' r => if Ascii.eqb c' c then Some r else None
  | EmptyString => None
  end.

(** scanner.go, [maxNestingDepth]. *)
Definition maxNestingDepth : Z := 10000.

(** One value at the head of [s] (no leading space), [depth] brackets deep.
    [scan_elems] reads the elements of an array from its first element to the
    closing bracket, [scan_members] the members of an object from its first
    key to the closing brace. *)
Fixpoint scan_value (fuel : nat) (depth : Z) (s : string) {struct fuel}
  : scan value :=
  match fuel with
  | O => OutOfFuel
  | S fuel' =>
      match s with
      | EmptyString => Invalid
      | String c s1 =>
          if Ascii.eqb c "[" then
            if maxNestingDepth <? depth + 1 then Invalid else
            match closes "]" (skip_space s1) with
            | Some r => Scanned (Array (consumed s r) []) r
            | None =>
                match scan_elems fuel' (depth + 1) (skip_space s1) with
                | Scanned vs r => Scanned (Array (consumed s r) vs) r
                | Invalid => Invalid
                | OutOfFuel => OutOfFuel
                end
            end
          else if Ascii.eqb c "{" then
            if maxNestingDepth <? depth + 1 then Invalid else
            match closes "}" (skip_space s1) with
            | Some r => Scanned (Object (consumed s r) []) r
            | None =>
                match scan_members fuel' (depth + 1) (skip_space s1) with
                | Scanned ms r => Scanned (Object (consumed s r) ms) r
                | Invalid => Invalid
                | OutOfFuel => OutOfFuel
                end
            end
          else if Ascii.eqb c dquote then
            match scan_string s1 with
            | Some (t, r) => Scanned (Str t) r
            | None => Invalid
            end
          else if Ascii.eqb c "-" || isDigit c then
            match scan_number s with
            | Some (lit, r) => Scanned (Number lit) r
            | None => Invalid
            end
          else if Ascii.eqb c "t" then
            match prefix "true" s with
            | Some r => Scanned (Bool true) r
            | None => Invalid
            end
          else if Ascii.eqb c "f" then
            match prefix "false" s with
            | Some r => Scanned (Bool false) r
            | None => Invalid
            end
          else if Ascii.eqb c "n" then
            match prefix "null" s with
            | Some r => Scanned Null r
            | None => Invalid
            end
          else Invalid
      end
  end

with scan_elems (fuel : nat) (depth : Z) (s : string) {struct fuel}
  : scan (list value) :=
  match fuel with
  | O => OutOfFuel
  | S fuel' =>
      match scan_value fuel' depth s with
      | Scanned v r =>
          match skip_space r with
          | String c r1 =>
              if Ascii.eqb c "]" then Scanned [v] r1
              else if Ascii.eqb c "," then
                match scan_elems fuel' depth (skip_space r1) with
                | Scanned vs r2 => Scanned (v :: vs) r2
                | Invalid => Invalid
                | OutOfFuel => OutOfFuel
                end
              else Invalid
          | EmptyString => Invalid
          end
      | Invalid => Invalid
      | OutOfFuel => OutOfFuel
      end
  end

with scan_members (fuel : nat) (depth : Z) (s : string) {struct fuel}
  : scan (list (string * value)) :=
  match fuel with
  | O => OutOfFuel
  | S fuel' =>
      match s with
      | String q s1 =>
          if Ascii.eqb q dquote then
            match scan_string s1 with
            | Some (k, r) =>
                match skip_space r with
                | String colon r1 =>
                    if Ascii.eqb colon ":" then
                      match scan_value fuel' depth (skip_space r1) with
                      | Scanned v r2 =>
                          match skip_space r2 with
                          | String c r3 =>
                              if Ascii.eqb c "}" then Scanned [(k, v)] r3
                              else if Ascii.eqb c "," then
                                match scan_members fuel' depth (skip_space r3) with
                                | Scanned ms r4 => Scanned ((k, v) :: ms) r4
                                | Invalid => Invalid
                                | OutOfFuel => OutOfFuel
                                end
                              else Invalid
                          | EmptyString => Invalid
                          end
                      | Invalid => Invalid
                      | OutOfFuel => OutOfFuel
                      end
                    else Invalid
                | EmptyString => Invalid
                end
            | None => Invalid
            end
          else Invalid
      | EmptyString => Invalid
      end
  end.

(** Fuel that no input exhausts (see [scan_value_fuel]). *)
Definition fuel_for (s : string) : nat := (2 * String.length s + 1)%nat.

(** [checkValid] and the first scan of the decoder: [data] is one JSON value
    with white space around it and nothing else. *)
Definition parse (data : string) : option value :=
  let s := skip_space data in
  match scan_value (fuel_for s) 0 s with
  | Scanned v r =>
      match skip_space r with
      | EmptyString => Some v
      | String _ _ => None
      end
  | Invalid => None
  | OutOfFuel => None
  end.

(** ** Decoding

    decode.go, [unquoteBytes] and what it calls. *)

Definition hexval (c : ascii) : Z :=
  if isDigit c then byte_val c - 48
  else if between 97 c 102 then byte_val c - 87
  else byte_val c - 55.

(** [getu4]: the code unit written by four hexadecimal digits. *)
Definition hex4 (h1 h2 h3 h4 : ascii) : Z :=
  ((hexval h1 * 16 + hexval h2) * 16 + hexval h3) * 16 + hexval h4.

(** [utf8.EncodeRune]. *)
Definition encodeRune (r : Z) : string :=
  let cont x := byte_of (128 + Z.land x 63) in
  let r := if (r <? 0) || (1114111 <? r) || ((55296 <=? r) && (r <=? 57343))
           then 65533 else r in
  if r <=? 127 then String (byte_of r) ""
  else if r <=? 2047 then
    String (byte_of (192 + Z.shiftr r 6)) (String (cont r) "")
  else if r <=? 65535 then
    String (byte_of (224 + Z.shiftr r 12))
      (String (cont (Z.shiftr r 6)) (String (cont r) ""))
  else
    String (byte_of (240 + Z.shiftr r 18))
      (String (cont (Z.shiftr r 12))
         (String (cont (Z.shiftr r 6)) (String (cont r) ""))).

(** [utf8.DecodeRune] at a byte [c] that is not ASCII, followed by [s]: the
    number of bytes that follow [c] in a well-formed encoding, or [None] when
    the encoding is not well formed (the decoder then consumes [c] alone). *)
Definition utf8_tail (c : ascii) (s : string) : option nat :=
  let cont x := between 128 x 191 in
  match s with
  | String c2 s2 =>
      if between 194 c 223 then (if cont c2 then Some 1%nat else None)
      else if between 224 c 239 then
        let ok2 := if byte_val c =? 224 then between 160 c2 191
                   else if byte_val c =? 237 then between 128 c2 159
                   else cont c2 in
        match s2 with
        | String c3 _ => if ok2 && cont c3 then Some 2%nat else None
        | EmptyString => None
        end
      else if between 240 c 244 then
        let ok2 := if byte_val c =? 240 then between 144 c2 191
                   else if byte_val c =? 244 then between 128 c2 143
                   else cont c2 in
        match s2 with
        | String c3 (String c4 _) =>
            if ok2 && cont c3 && cont c4 then Some 3%nat else None
        | _ => None
        end
      else None
  | EmptyString => None
  end.

Definition isSurrogate (r : Z) : bool := (55296 <=? r) && (r <? 57344).

(** [utf16.DecodeRune]. *)
Definition utf16_DecodeRune (r1 r2 : Z) : Z :=
  if (55296 <=? r1) && (r1 <? 56320) && (56320 <=? r2) && (r2 <? 57344)
  then Z.lor (Z.shiftl (r1 - 55296) 10) (r2 - 56320) + 65536
  else 65533.

Definition unescape (e : ascii) : ascii :=
  if Ascii.eqb e "b" then "008"%char
  else if Ascii.eqb e "f" then "012"%char
  else if Ascii.eqb e "n" then "010"%char
  else if Ascii.eqb e "r" then "013"%char
  else if Ascii.eqb e "t" then "009"%char
  else e.

(** The string that the text [s] between two quotes denotes: escapes are
    replaced, a well-formed UTF-8 sequence is copied and every other byte
    from 128 up becomes U+FFFD.  [copy] counts the bytes still to copy of the
    sequence under way.  [s] has passed [scan_string]. *)
Fixpoint unquote_from (copy : nat) (s : string) : string :=
  match s with
  | EmptyString => EmptyString
  | String c s1 =>
      match copy with
      | S k => String c (unquote_from k s1)
      | O =>
          if Ascii.eqb c backslash then
            match s1 with
            | String e s2 =>
                if Ascii.eqb e "u" then
                  match s2 with
                  | String h1 (String h2 (String h3 (String h4 s3))) =>
                      let rr := hex4 h1 h2 h3 h4 in
                      if isSurrogate rr then
                        match s3 with
                        | String b (String u (String g1 (String g2
                                    (String g3 (String g4 s4))))) =>
                            let dec := utf16_DecodeRune rr (hex4 g1 g2 g3 g4) in
                            if Ascii.eqb b backslash && Ascii.eqb u "u"
                               && negb (dec =? 65533)
                            then encodeRune dec ++ unquote_from O s4
                            else encodeRune 65533 ++ unquote_from O s3
                        | _ => encodeRune 65533 ++ unquote_from O s3
                        end
                      else encodeRune rr ++ unquote_from O s3
                  | _ => EmptyString
                  end
                else String (unescape e) (unquote_from O s2)
            | EmptyString => EmptyString
            end
          else if byte_val c <? 128 then String c (unquote_from O s1)
          else
            match utf8_tail c s1 with
            | Some k => String c (unquote_from k s1)
            | None => encodeRune 65533 ++ unquote_from O s1
            end
      end
  end.

Definition unquote (s : string) : string := unquote_from O s.

(** fold.go, [foldName], as far as a comparison with an ASCII field name can
    tell: an ASCII letter is put in upper case, U+017F folds to [S] and
    U+212A to [K]; no other rune folds to an ASCII one, and its bytes are
    left as they are. *)
Fixpoint foldName (s : string) : string :=
  match s with
  | EmptyString => EmptyString
  | String c s1 =>
      if between 97 c 122 then String (byte_of (byte_val c - 32)) (foldName s1)
      else
        match s1 with
        | String c2 s2 =>
            if (byte_val c =? 197) && (byte_val c2 =? 191)
            then String "S" (foldName s2)
            else
              match s2 with
              | String c3 s3 =>
                  if (byte_val c =? 226) && (byte_val c2 =? 132)
                     && (byte_val c3 =? 170)
                  then String "K" (foldName s3)
                  else String c (foldName s1)
              | EmptyString => String c (foldName s1)
              end
        | EmptyString => String c (foldName s1)
        end
  end.

(** The value of a run of decimal digits, [None] if another byte occurs. *)
Fixpoint decimal (acc : Z) (s : string) : option Z :=
  match s with
  | EmptyString => Some acc
  | String c s' =>
      if isDigit c then decimal (acc * 10 + (byte_val c - 48)) s' else None
  end.

(** [strconv.ParseInt(lit, 10, 64)] on a JSON number: digits after an
    optional minus sign, within the 64-bit range. *)
Definition ParseInt (lit : string) : option Z :=
  let (neg, ds) :=
    match lit with
    | String c s' => if Ascii.eqb c "-" then (true, s') else (false, lit)
    | EmptyString => (false, lit)
    end in
  match ds with
  | EmptyString => None
  | _ =>
      match decimal 0 ds with
      | Some n =>
          let z := if neg then - n else n in
          if (- 2 ^ 63 <=? z) && (z <? 2 ^ 63) then Some z else None
      | None => None
      end
  end.

(** The magnitude of a JSON number as a pair [(m, e)] standing for
    [m * 10 ^ e]. *)
Definition magnitude (lit : string) : Z * Z :=
  let s0 := match lit with
            | String c s' => if Ascii.eqb c "-" then s' else lit
            | EmptyString => lit
            end in
  let (ip, s1) := digits s0 in
  let (fp, s2) := match s1 with
                  | String c s' => if Ascii.eqb c "." then digits s' else ("", s1)
                  | EmptyString => ("", s1)
                  end in
  let ex := match s2 with
            | String _ (String g s') =>
                if Ascii.eqb g "-" then - match decimal 0 s' with Some n => n | None => 0 end
                else if Ascii.eqb g "+" then match decimal 0 s' with Some n => n | None => 0 end
                else match decimal 0 (String g s') with Some n => n | None => 0 end
            | _ => 0
            end in
  (match decimal 0 (ip ++ fp) with Some m => m | None => 0 end,
   ex - Z.of_nat (String.length fp)).

(** [strconv.ParseFloat(lit, 64)] reports a range error when the nearest
    float64 is infinite, that is from [2^1024 - 2^970] up in magnitude.  The
    comparison is made here on the exact value of the literal.  ParseFloat
    keeps 800 significant digits and bounds the exponent it reads, so on a
    literal longer than that the two may differ; no property below depends
    on it. *)
Definition float64_overflows (lit : string) : bool :=
  let (m, e) := magnitude lit in
  let top := 2 ^ 1024 - 2 ^ 970 in
  if 0 <=? e then top <=? m * 10 ^ e else top * 10 ^ (- e) <=? m.

(** [UnmarshalTypeError], without its offset; [SyntaxError] stands for the
    error that the scanner reports on the input [data]. *)
Inductive error : Type :=
| SyntaxError (data : string)
| UnmarshalTypeError (Value Type_ Struct Field : string).

(** The first number below [v] that has no float64, if any: decoding into
    [interface{}] converts every number ([convertNumber]). *)
Fixpoint first_overflow (v : value) : option string :=
  let fix among (vs : list value) : option string :=
    match vs with
    | [] => None
    | x :: vs' =>
        match first_overflow x with
        | Some lit => Some lit
        | None => among vs'
        end
    end in
  let fix among_members (ms : list (string * value)) : option string :=
    match ms with
    | [] => None
    | (_, x) :: ms' =>
        match first_overflow x with
        | Some lit => Some lit
        | None => among_members ms'
        end
    end in
  match v with
  | Number lit => if float64_overflows lit then Some lit else None
  | Array _ vs => among vs
  | Object _ ms => among_members ms
  | _ => None
  end.

(** What [UnmarshalTypeError.Value] says of a value that does not fit. *)
Definition describe (v : value) : string :=
  match v with
  | Null => "null"
  | Bool _ => "bool"
  | Number _ => "number"
  | Str _ => "string"
  | Array _ _ => "array"
  | Object _ _ => "object"
  end.

(** *** Struct fields

    A field of a struct [T] is its JSON name and the way a value is stored in
    it; [store] returns the struct after the store and the type error it
    raised, whose [Struct] and [Field] the caller fills in. *)
Record field (T : Type) : Type := mkField {
  name : string;
  store : value -> T -> T * option error
}.
Arguments mkField {T} name store.
Arguments name {T} f.
Arguments store {T} f v t.

Definition mismatch (v : value) (ty : string) : option error :=
  Some (UnmarshalTypeError (describe v) ty "" "").

(** A field of type [int]. *)
Definition int_field {T} (name : string) (set : Z -> T -> T) : field T :=
  mkField name (fun v t =>
    match v with
    | Null => (t, None)
    | Number lit =>
        match ParseInt lit with
        | Some n => (set n t, None)
        | None => (t, Some (UnmarshalTypeError ("number " ++ lit) "int" "" ""))
        end
    | _ => (t, mismatch v "int")
    end).

(** A field of type [string]. *)
Definition string_field {T} (name : string) (set : string -> T -> T) : field T :=
  mkField name (fun v t =>
    match v with
    | Null => (t, None)
    | Str inner => (set (unquote inner) t, None)
    | _ => (t, mismatch v "string")
    end).

(** A field of type [json.RawMessage]: [UnmarshalJSON] copies the text of
    the value, whatever it is, [null] included. *)
Definition raw_field {T} (name : string) (set : string -> T -> T) : field T :=
  mkField name (fun v t => (set (raw_of v) t, None)).

(** A field of type [[]interface{}]: [null] makes it nil, an array is
    stored with its elements. *)
Definition slice_field {T} (name : string) (set : option (list value) -> T -> T)
  : field T :=
  mkField name (fun v t =>
    match v with
    | Null => (set None t, None)
    | Array _ vs =>
        (set (Some vs) t,
         match first_overflow v with
         | Some lit => Some (UnmarshalTypeError ("number " ++ lit) "float64" "" "")
         | None => None
         end)
    | _ => (t, mismatch v "[]interface {}")
    end).

Record structType (T : Type) : Type := mkStruct {
  type_name : string;
  fields : list (field T)
}.
Arguments mkStruct {T} type_name fields.
Arguments type_name {T} s.
Arguments fields {T} s.

(** The field a key selects: the one of that name, or else the first whose
    name is the same under case folding. *)
Definition find_field {T} (ty : structType T) (key : string) : option (field T) :=
  match find (fun f => String.eqb (name f) key) (fields ty) with
  | Some f => Some f
  | None =>
      find (fun f => String.eqb (foldName (name f)) (foldName key)) (fields ty)
  end.

(** [addErrorContext]. *)
Definition addErrorContext {T} (ty : structType T) (f : field T) (e : error)
  : error :=
  match e with
  | UnmarshalTypeError v t _ _ => UnmarshalTypeError v t (type_name ty) (name f)
  | _ => e
  end.

(** [saveError]: the first error is the one kept. *)
Definition saveError (saved new : option error) : option error :=
  match saved with
  | Some _ => saved
  | None => new
  end.

(** [decodeState.object] on a struct: the members are stored in the order
    of the input, a member whose key selects no field is skipped. *)
Fixpoint store_members {T} (ty : structType T) (ms : list (string * value))
  (t : T) (saved : option error) : T * option error :=
  match ms with
  | [] => (t, saved)
  | (k, v) :: ms' =>
      match find_field ty (unquote k) with
      | Some f =>
          let (t', e) := store f v t in
          store_members ty ms' t'
            (saveError saved (option_map (addErrorContext ty f) e))
      | None => store_members ty ms' t saved
      end
  end.

Definition decode {T} (ty : structType T) (pkg : string) (v : value) (t : T)
  : T * option error :=
  match v with
  | Null => (t, None)
  | Object _ ms => store_members ty ms t None
  | _ => (t, mismatch v (pkg ++ "." ++ type_name ty))
  end.

(** [json.Unmarshal(data, &t)] for a struct [t] of package [pkg]. *)
Definition Unmarshal {T} (ty : structType T) (pkg : string) (data : string)
  (t : T) : T * option error :=
  match parse data with
  | None => (t, Some (SyntaxError data))
  | Some v => decode ty pkg v t
  end.

(** The method [Error] of an [UnmarshalTypeError]. *)
Definition TypeError_text (Value Type_ Struct Field : string) : string :=
  if negb (String.eqb Struct "") || negb (String.eqb Field "") then
    "json: cannot unmarshal " ++ Value ++ " into Go struct field "
      ++ Struct ++ "." ++ Field ++ " of type " ++ Type_
  else "json: cannot unmarshal " ++ Value ++ " into Go value of type " ++ Type_.

End json.

(** * fmt *)

Module fmt.

(** The verb [%d] on an [int]. *)
Definition d (n : Z) : string := NilEmpty.string_of_int (Z.to_int n).

End fmt.

(** * Errors

    A Go [error] as this package meets it: an error of [encoding/json], the
    error that [fmt.Errorf] makes from a text, or an error of the transport
    ([net/http], [io], [context]), known by its text only. *)
Inductive error : Type :=
| json_error (e : json.error)
| errorString (s : string)
| foreign (text : string).

Definition lift_json {T} (r : T * option json.error) : T * option error :=
  (fst r, option_map json_error (snd r)).

(** * Package zarinpalgo *)

Definition pkg : string := "zarinpalgo".

Module http_Client.
Record t : Type := mk { Timeout : Z }.
End http_Client.

Module time.
Definition Second : Z := 1000000000.
End time.

Module Zarinpal.
Record t : Type := mk {
  MerchantID : string;
  APIBaseURL : string;
  PaymentBaseURL : string;
  client : http_Client.t
}.
End Zarinpal.

Module PaymentStatus.
Record t : Type := mk {
  IsSuccessful : bool;
  IsRepeated : bool;
  RefID : Z;
  Message : string
}.
(** The zero value. *)
Definition zero : t := mk false false 0 "".
Definition with_IsSuccessful (b : bool) (s : t) : t :=
  mk b (IsRepeated s) (RefID s) (Message s).
Definition with_IsRepeated (b : bool) (s : t) : t :=
  mk (IsSuccessful s) b (RefID s) (Message s).
Definition with_RefID (n : Z) (s : t) : t :=
  mk (IsSuccessful s) (IsRepeated s) n (Message s).
Definition with_Message (m : string) (s : t) : t :=
  mk (IsSuccessful s) (IsRepeated s) (RefID s) m.
End PaymentStatus.

Module Metadata.
Record t : Type := mk { Email : string; Mobile : string; OrderID : string }.
End Metadata.

Module Wage.
Record t : Type := mk { Iban : string; Amount : Z; Description : string }.
End Wage.

Module PaymentRequest.
Record t : Type := mk {
  MerchantID : string;
  Amount : Z;
  Description : string;
  Metadata : option Metadata.t;
  CallbackURL : string;
  Wages : list Wage.t
}.
End PaymentRequest.

Module PaymentVerificationRequest.
Record t : Type := mk { MerchantID : string; Amount : Z; Authority : string }.
End PaymentVerificationRequest.

Module PaymentCreationResponse.
Record t : Type := mk {
  Code : Z;
  Message : string;
  Authority : string;
  FeeType : string;
  Fee : Z
}.
Definition zero : t := mk 0 "" "" "" 0.
(** The struct tags. *)
Definition ty : json.structType t :=
  json.mkStruct "PaymentCreationResponse"
    [ json.int_field "code"
        (fun x r => mk x (Message r) (Authority r) (FeeType r) (Fee r));
      json.string_field "message"
        (fun x r => mk (Code r) x (Authority r) (FeeType r) (Fee r));
      json.string_field "authority"
        (fun x r => mk (Code r) (Message r) x (FeeType r) (Fee r));
      json.string_field "fee_type"
        (fun x r => mk (Code r) (Message r) (Authority r) x (Fee r));
      json.int_field "fee"
        (fun x r => mk (Code r) (Message r) (Authority r) (FeeType r) x) ].
End PaymentCreationResponse.

Module PaymentVerificationResponse.
Record t : Type := mk {
  Code : Z;
  Message : string;
  CardHash : string;
  CardPan : string;
  RefID : Z;
  FeeType : string;
  Fee : Z
}.
Definition zero : t := mk 0 "" "" "" 0 "" 0.
Definition ty : json.structType t :=
  json.mkStruct "PaymentVerificationResponse"
    [ json.int_field "code"
        (fun x r => mk x (Message r) (CardHash r) (CardPan r) (RefID r)
                       (FeeType r) (Fee r));
      json.string_field "message"
        (fun x r => mk (Code r) x (CardHash r) (CardPan r) (RefID r)
                       (FeeType r) (Fee r));
      json.string_field "card_hash"
        (fun x r => mk (Code r) (Message r) x (CardPan r) (RefID r)
                       (FeeType r) (Fee r));
      json.string_field "card_pan"
        (fun x r => mk (Code r) (Message r) (CardHash r) x (RefID r)
                       (FeeType r) (Fee r));
      json.int_field "ref_id"
        (fun x r => mk (Code r) (Message r) (CardHash r) (CardPan r) x
                       (FeeType r) (Fee r));
      json.string_field "fee_type"
        (fun x r => mk (Code r) (Message r) (CardHash r) (CardPan r) (RefID r)
                       x (Fee r));
      json.int_field "fee"
        (fun x r => mk (Code r) (Message r) (CardHash r) (CardPan r) (RefID r)
                       (FeeType r) x) ].
End PaymentVerificationResponse.

Module BaseResponse.
Record t : Type := mk { Data : string; Errors : string }.
Definition zero : t := mk "" "".
Definition ty : json.structType t :=
  json.mkStruct "BaseResponse"
    [ json.raw_field "data" (fun x r => mk x (Errors r));
      json.raw_field "errors" (fun x r => mk (Data r) x) ].
End BaseResponse.

Module ErrorResponse.
Record t : Type := mk {
  Message : string;
  Code : Z;
  Validations : option (list json.value)
}.
Definition zero : t := mk "" 0 None.
Definition ty : json.structType t :=
  json.mkStruct "ErrorResponse"
    [ json.string_field "message" (fun x r => mk x (Code r) (Validations r));
      json.int_field "code" (fun x r => mk (Message r) x (Validations r));
      json.slice_field "validations" (fun x r => mk (Message r) (Code r) x) ].
End ErrorResponse.

Definition PaymentCodeSuccess : Z := 100.
Definition PaymentCodeAlreadyVerified : Z := 101.

(** [New] and [NewWithMode]. *)
Definition NewWithMode (merchantID : string) (sandbox : bool) : Zarinpal.t :=
  let baseURL := "https://payment.zarinpal.com" in
  let baseURL := if sandbox then "https://sandbox.zarinpal.com" else baseURL in
  Zarinpal.mk merchantID
    (baseURL ++ "/pg/v4/payment/")
    (baseURL ++ "/pg/StartPay/")
    (http_Client.mk (30 * time.Second)).

Definition New (merchantID : string) : Zarinpal.t :=
  NewWithMode merchantID false.

(** [checkResponse].  The results are named in the source: [rawMessage] is
    still nil, the empty byte sequence, at each [return] that follows an
    error.  [isEmptyErrors] is a local variable there. *)
Definition isEmptyErrors (errors : string) : bool :=
  String.eqb errors "[]" || String.eqb errors "{}" || String.eqb errors "".

Definition checkResponse (body : string) : string * option error :=
  match lift_json (json.Unmarshal BaseResponse.ty pkg body BaseResponse.zero) with
  | (_, Some err) => ("", Some err)
  | (baseResponse, None) =>
      if negb (isEmptyErrors (BaseResponse.Errors baseResponse)) then
        match lift_json (json.Unmarshal ErrorResponse.ty pkg
                           (BaseResponse.Errors baseResponse)
                           ErrorResponse.zero) with
        | (_, Some err) => ("", Some err)
        | (errorResponse, None) =>
            ("", Some (errorString
                         ("error code: " ++ fmt.d (ErrorResponse.Code errorResponse)
                          ++ ", error: " ++ ErrorResponse.Message errorResponse)))
        end
      else (BaseResponse.Data baseResponse, None)
  end.

(** ** The client

    What the methods of [Zarinpal] call outside the package: [json.Marshal]
    on the two request bodies, [http.NewRequestWithContext], the [Do] of the
    HTTP client, [io.ReadAll] and the [Close] of a response body; and the
    message of a JSON syntax error.  [World] is the state of everything
    behind the transport. *)
Record Platform : Type := mkPlatform {
  World : Type;
  Context : Type;
  Request : Type;
  Response : Type;
  Marshal_PaymentRequest : PaymentRequest.t -> string * option error;
  Marshal_PaymentVerificationRequest :
    PaymentVerificationRequest.t -> string * option error;
  NewRequestWithContext :
    Context -> string -> string -> string -> Request + error;
  Header_Add : Request -> string -> string -> Request;
  Do : http_Client.t -> Request -> World -> (Response + error) * World;
  ReadAll : Response -> World -> (string * option error) * World;
  Close : Response -> World -> World;
  SyntaxError_msg : string -> string
}.

Section Client.

Variable P : Platform.

(** The method [Error] of an [error]. *)
Definition Error (err : error) : string :=
  match err with
  | json_error (json.SyntaxError data) => SyntaxError_msg P data
  | json_error (json.UnmarshalTypeError v t s f) => json.TypeError_text v t s f
  | errorString s => s
  | foreign text => text
  end.

(** The methods have a pointer receiver: the state they run in holds the
    struct [z] points to, next to the world. *)
Record State : Type := mkState {
  this : Zarinpal.t;
  world : World P
}.

Definition M (A : Type) : Type := State -> A * State.

Definition ret {A} (a : A) : M A := fun s => (a, s).

Definition bind {A B} (m : M A) (k : A -> M B) : M B :=
  fun s => let (a, s') := m s in k a s'.

Notation "x <- m ;; k" := (bind m (fun x => k))
  (at level 61, m at next level, right associativity).

(** Reading a field of the receiver. *)
Definition load {A} (f : Zarinpal.t -> A) : M A := fun s => (f (this s), s).

(** Assigning the receiver; no method does. *)
Definition assign (z : Zarinpal.t) : M unit :=
  fun s => (tt, mkState z (world s)).

(** A call that goes through the transport. *)
Definition call {A} (f : World P -> A * World P) : M A :=
  fun s => let (a, w) := f (world s) in (a, mkState (this s) w).

Definition NewPayment (ctx : Context P) (amount : Z) (description : string)
  (metadata : option Metadata.t) (callbackURL : string) (wages : list Wage.t)
  : M (PaymentCreationResponse.t * option error) :=
  let paymentCreationResponse := PaymentCreationResponse.zero in
  merchantID <- load Zarinpal.MerchantID ;;
  let paymentRequestBody :=
    PaymentRequest.mk merchantID amount description metadata callbackURL wages in
  match Marshal_PaymentRequest P paymentRequestBody with
  | (_, Some err) => ret (paymentCreationResponse, Some err)
  | (marshalled, None) =>
      apiBaseURL <- load Zarinpal.APIBaseURL ;;
      match NewRequestWithContext P ctx "POST" (apiBaseURL ++ "request.json")
              marshalled with
      | inr err => ret (paymentCreationResponse, Some err)
      | inl req =>
          let req := Header_Add P req "Content-Type" "application/json" in
          client <- load Zarinpal.client ;;
          resp <- call (Do P client req) ;;
          match resp with
          | inr err => ret (paymentCreationResponse, Some err)
          | inl resp =>
              read <- call (ReadAll P resp) ;;
              let result :=
                match read with
                | (_, Some err) => (paymentCreationResponse, Some err)
                | (bodyBytes, None) =>
                    match checkResponse bodyBytes with
                    | (_, Some err) => (paymentCreationResponse, Some err)
                    | (rawMessage, None) =>
                        lift_json (json.Unmarshal PaymentCreationResponse.ty pkg
                                     rawMessage paymentCreationResponse)
                    end
                end in
              (* the deferred resp.Body.Close() *)
              _ <- call (fun w => (tt, Close P resp w)) ;;
              ret result
          end
      end
  end.

Definition VerifyPayment (ctx : Context P) (amount : Z) (authority : string)
  : M (PaymentVerificationResponse.t * option error) :=
  let paymentVerificationResponse := PaymentVerificationResponse.zero in
  merchantID <- load Zarinpal.MerchantID ;;
  let paymentVerificationRequestBody :=
    PaymentVerificationRequest.mk merchantID amount authority in
  match Marshal_PaymentVerificationRequest P paymentVerificationRequestBody with
  | (_, Some err) => ret (paymentVerificationResponse, Some err)
  | (marshalled, None) =>
      apiBaseURL <- load Zarinpal.APIBaseURL ;;
      match NewRequestWithContext P ctx "POST" (apiBaseURL ++ "verify.json")
              marshalled with
      | inr err => ret (paymentVerificationResponse, Some err)
      | inl req =>
          let req := Header_Add P req "Content-Type" "application/json" in
          client <- load Zarinpal.client ;;
          resp <- call (Do P client req) ;;
          match resp with
          | inr err => ret (paymentVerificationResponse, Some err)
          | inl resp =>
              read <- call (ReadAll P resp) ;;
              let result :=
                match read with
                | (_, Some err) => (paymentVerificationResponse, Some err)
                | (bodyBytes, None) =>
                    match checkResponse bodyBytes with
                    | (_, Some err) => (paymentVerificationResponse, Some err)
                    | (rawMessage, None) =>
                        lift_json (json.Unmarshal PaymentVerificationResponse.ty
                                     pkg rawMessage paymentVerificationResponse)
                    end
                end in
              (* the deferred resp.Body.Close() *)
              _ <- call (fun w => (tt, Close P resp w)) ;;
              ret result
          end
      end
  end.

Definition CheckPaymentStatus (ctx : Context P) (amount : Z) (authority : string)
  : M (PaymentStatus.t * option error) :=
  r <- VerifyPayment ctx amount authority ;;
  match r with
  | (_, Some err) =>
      ret (PaymentStatus.with_Message (Error err)
             (PaymentStatus.with_IsSuccessful false PaymentStatus.zero),
           Some err)
  | (verification, None) =>
      let status :=
        PaymentStatus.with_RefID (PaymentVerificationResponse.RefID verification)
          (PaymentStatus.with_Message
             (PaymentVerificationResponse.Message verification)
             PaymentStatus.zero) in
      let status :=
        if PaymentVerificationResponse.Code verification =? PaymentCodeSuccess
        then PaymentStatus.with_IsRepeated false
               (PaymentStatus.with_IsSuccessful true status)
        else if PaymentVerificationResponse.Code verification
                =? PaymentCodeAlreadyVerified
        then PaymentStatus.with_IsRepeated true
               (PaymentStatus.with_IsSuccessful true status)
        else PaymentStatus.with_IsRepeated false
               (PaymentStatus.with_IsSuccessful false status) in
      ret (status, None)
  end.

Definition GetPaymentURL (authority : string) : M string :=
  paymentBaseURL <- load Zarinpal.PaymentBaseURL ;;
  ret (paymentBaseURL ++ authority).

End Client.

Arguments ret {P A} a s.
Arguments bind {P A B} m k s.
Arguments load {P A} f s.
Arguments call {P A} f s.
Arguments this {P} s.
Arguments world {P} s.
Arguments mkState {P} this world.

(** A transport that answers every request with the same body and counts the
    requests it has seen; it stands in for the gateway where a statement is
    tried on an input. *)
Definition canned (body : string) : Platform :=
  mkPlatform nat unit (string * list (string * string)) string
    (fun _ => ("{}", None))
    (fun _ => ("{}", None))
    (fun _ _ url _ => inl (url, []))
    (fun req k v => (fst req, (snd req ++ [(k, v)])%list))
    (fun _ _ w => (inl body, S w))
    (fun resp w => ((resp, None), w))
    (fun _ w => w)
    (fun _ => "invalid character").

(** A transport that cannot reach the gateway. *)
Definition unreachable (text : string) : Platform :=
  mkPlatform nat unit (string * list (string * string)) string
    (fun _ => ("{}", None))
    (fun _ => ("{}", None))
    (fun _ _ url _ => inl (url, []))
    (fun req k v => (fst req, (snd req ++ [(k, v)])%list))
    (fun _ _ w => (inr (foreign text), S w))
    (fun resp w => ((resp, None), w))
    (fun _ w => w)
    (fun _ => "invalid character").

(** A transport on which no request can be built. *)
Definition refusing (text : string) : Platform :=
  mkPlatform nat unit (string * list (string * string)) string
    (fun _ => ("{}", None))
    (fun _ => ("{}", None))
    (fun _ _ _ _ => inr (foreign text))
    (fun req k v => (fst req, (snd req ++ [(k, v)])%list))
    (fun _ _ w => (inl "", S w))
    (fun resp w => ((resp, None), w))
    (fun _ w => w)
    (fun _ => "invalid character").

(** A transport that keeps a log of what is asked of it: the URL of each
    request it is given, each read of a body and each close.  It answers
    with [body], and the read reports [read_err]. *)
Definition logging (body : string) (read_err : option error) : Platform :=
  mkPlatform (list string) unit (string * list (string * string)) string
    (fun _ => ("{}", None))
    (fun _ => ("{}", None))
    (fun _ _ url _ => inl (url, []))
    (fun req k v => (fst req, (snd req ++ [(k, v)])%list))
    (fun _ req w => (inl body, (w ++ [("do " ++ fst req)%string])%list))
    (fun resp w => ((resp, read_err), (w ++ ["read"])%list))
    (fun _ w => (w ++ ["close"])%list)
    (fun _ => "invalid character").

(** * Statements

    What the properties below are stated with. *)

(** The text that [checkResponse] gives the error it makes of a code and a
    message. *)
Definition gateway_text (code : Z) (message : string) : string :=
  "error code: " ++ fmt.d code ++ ", error: " ++ message.


(** The two decodings of [checkResponse]. *)
Definition decode_envelope (body : string) : BaseResponse.t * option json.error :=
  json.Unmarshal BaseResponse.ty pkg body BaseResponse.zero.

Definition decode_errors (errors : string) : ErrorResponse.t * option json.error :=
  json.Unmarshal ErrorResponse.ty pkg errors ErrorResponse.zero.

(** The classification of the errors region the way the specification words
    it: the region is the empty list, the empty object, the empty JSON
    string (two quotes), or is absent (no bytes). *)
Definition spec_errors_empty (errors : string) : Prop :=
  errors = "[]" \/ errors = "{}" \/ errors = j "''" \/ errors = "".

(** The status classification the way the specification words it: code
    100 is a first success, code 101 a repeated success, any other code a
    failure; the message and the reference identifier are copied. *)
Definition classify (v : PaymentVerificationResponse.t) : PaymentStatus.t :=
  let code := PaymentVerificationResponse.Code v in
  PaymentStatus.mk
    (if code =? 100 then true else if code =? 101 then true else false)
    (if code =? 100 then false else if code =? 101 then true else false)
    (PaymentVerificationResponse.RefID v)
    (PaymentVerificationResponse.Message v).

(** A computation leaves the receiver as it found it. *)
Definition preserves {P : Platform} {A : Type} (m : M P A) : Prop :=
  forall s, this (snd (m s)) = this s.

(** [r] is what is left of [s] after some bytes, and after at least one. *)
Definition splits (s r : string) : Prop := exists p, s = p ++ r.

Definition consumes (s r : string) : Prop := exists p, p <> "" /\ s = p ++ r.

(** The member key [key] selects the field called [name] of the struct. *)
Definition selects {T} (ty : json.structType T) (name key : string) : bool :=
  match json.find_field ty (json.unquote key) with
  | Some f => String.eqb (json.name f) name
  | None => false
  end.

(** The body carries no errors region: it is [null], or an object none of
    whose keys selects the field [errors]. *)
Definition errors_absent (body : string) : Prop :=
  json.parse body = Some json.Null
  \/ exists raw ms,
       json.parse body = Some (json.Object raw ms)
       /\ Forall (fun kv => selects BaseResponse.ty "errors" (fst kv) = false) ms.

(** The code and the message that the members of an errors object give:
    each is the value of the last member that selects the field and holds a
    value of its type, or else the zero value. *)
Definition code_step (acc : Z) (kv : string * json.value) : Z :=
  if selects ErrorResponse.ty "code" (fst kv) then
    match snd kv with
    | json.Number lit =>
        match json.ParseInt lit with
        | Some n => n
        | None => acc
        end
    | _ => acc
    end
  else acc.

Definition message_step (acc : string) (kv : string * json.value) : string :=
  if selects ErrorResponse.ty "message" (fst kv) then
    match snd kv with
    | json.Str inner => json.unquote inner
    | _ => acc
    end
  else acc.

Definition code_of (ms : list (string * json.value)) : Z :=
  fold_left code_step ms 0.

Definition message_of (ms : list (string * json.value)) : string :=
  fold_left message_step ms "".


(** [a] begins as [b] does, or is empty: what follows a value may be
    replaced by [a] without the scanner taking another course. *)
Definition agrees (a b : string) : Prop :=
  a = "" \/ exists c a' b', a = String c a' /\ b = String c b'.

(** The text of [v] is a JSON text that [parse] reads as [v]. *)
Definition reparses (v : json.value) : Prop :=
  json.parse (json.raw_of v) = Some v.

(** A raw region as a [RawMessage] field can hold it after decoding: no
    bytes, or the text of one JSON value. *)
Definition raw_region (raw : string) : Prop :=
  raw = "" \/ exists v, json.parse raw = Some v /\ json.raw_of v = raw.

(** What [NewPayment] and [VerifyPayment] make of the body they have read:
    the error of [checkResponse] with the response left at its zero value,
    or the decoding of the data region into the response. *)
Definition decode_payload {T} (ty : json.structType T) (zero : T)
  (body : string) : T * option error :=
  match checkResponse body with
  | (_, Some err) => (zero, Some err)
  | (rawMessage, None) => lift_json (json.Unmarshal ty pkg rawMessage zero)
  end.

(** The exchange that [VerifyPayment] starts from the state [s] goes
    through: the request is built, the transport answers, the body is read
    as [body], and the state is [s'] once the response body is closed. *)
Definition verify_exchange (P : Platform) (ctx : Context P) (amount : Z)
  (authority : string) (s : State P) (body : string) (s' : State P) : Prop :=
  exists marshalled req resp w1 w2,
    Marshal_PaymentVerificationRequest P
      (PaymentVerificationRequest.mk (Zarinpal.MerchantID (this s)) amount
         authority) = (marshalled, None)
    /\ NewRequestWithContext P ctx "POST"
         (Zarinpal.APIBaseURL (this s) ++ "verify.json") marshalled = inl req
    /\ Do P (Zarinpal.client (this s))
         (Header_Add P req "Content-Type" "application/json") (world s)
       = (inl resp, w1)
    /\ ReadAll P resp w1 = ((body, None), w2)
    /\ s' = mkState (this s) (Close P resp w2).

(** The same for [NewPayment]. *)
Definition create_exchange (P : Platform) (ctx : Context P) (amount : Z)
  (description : string) (metadata : option Metadata.t) (callbackURL : string)
  (wages : list Wage.t) (s : State P) (body : string) (s' : State P) : Prop :=
  exists marshalled req resp w1 w2,
    Marshal_PaymentRequest P
      (PaymentRequest.mk (Zarinpal.MerchantID (this s)) amount description
         metadata callbackURL wages) = (marshalled, None)
    /\ NewRequestWithContext P ctx "POST"
         (Zarinpal.APIBaseURL (this s) ++ "request.json") marshalled = inl req
    /\ Do P (Zarinpal.client (this s))
         (Header_Add P req "Content-Type" "application/json") (world s)
       = (inl resp, w1)
    /\ ReadAll P resp w1 = ((body, None), w2)
    /\ s' = mkState (this s) (Close P resp w2).

(** An error of the decoder that is a type error, not a syntax error. *)
Definition is_type_error (e : json.error) : Prop :=
  match e with
  | json.UnmarshalTypeError _ _ _ _ => True
  | json.SyntaxError _ => False
  end.

(** The field raises type errors only. *)
Definition typed_field {T} (f : json.field T) : Prop :=
  forall v t e, snd (json.store f v t) = Some e -> is_type_error e.

(** The value is neither an object nor [null]: no struct is decoded from
    it. *)
Definition not_a_struct (v : json.value) : Prop :=
  match v with
  | json.Object _ _ | json.Null => False
  | _ => True
  end.

(** The request of [NewPayment] cannot be built: the body is not
    marshalled, or [http.NewRequestWithContext] refuses the request. *)
Definition create_not_built (P : Platform) (ctx : Context P) (amount : Z)
  (description : string) (metadata : option Metadata.t) (callbackURL : string)
  (wages : list Wage.t) (s : State P) (err : error) : Prop :=
  let request :=
    PaymentRequest.mk (Zarinpal.MerchantID (this s)) amount description
      metadata callbackURL wages in
  (exists m, Marshal_PaymentRequest P request = (m, Some err))
  \/ exists m,
       Marshal_PaymentRequest P request = (m, None)
       /\ NewRequestWithContext P ctx "POST"
            (Zarinpal.APIBaseURL (this s) ++ "request.json") m = inr err.

(** The exchange of [VerifyPayment] fails in the transport with [err] and
    leaves the state [s']: [Do] fails, or the body cannot be read, in which
    case it is closed all the same. *)
Definition verify_transport_error (P : Platform) (ctx : Context P)
  (amount : Z) (authority : string) (s : State P) (err : error)
  (s' : State P) : Prop :=
  exists m req,
    Marshal_PaymentVerificationRequest P
      (PaymentVerificationRequest.mk (Zarinpal.MerchantID (this s)) amount
         authority) = (m, None)
    /\ NewRequestWithContext P ctx "POST"
         (Zarinpal.APIBaseURL (this s) ++ "verify.json") m = inl req
    /\ let sent := Header_Add P req "Content-Type" "application/json" in
       (exists w1,
          Do P (Zarinpal.client (this s)) sent (world s) = (inr err, w1)
          /\ s' = mkState (this s) w1)
       \/ exists resp w1 read w2,
            Do P (Zarinpal.client (this s)) sent (world s) = (inl resp, w1)
            /\ ReadAll P resp w1 = ((read, Some err), w2)
            /\ s' = mkState (this s) (Close P resp w2).

(** The code that the members of a data object give a verification
    response: the value of the last member that selects the field [code]
    and holds an integer of the 64-bit range, or else 0. *)
Definition verification_code_step (acc : Z) (kv : string * json.value) : Z :=
  if selects PaymentVerificationResponse.ty "code" (fst kv) then
    match snd kv with
    | json.Number lit =>
        match json.ParseInt lit with
        | Some n => n
        | None => acc
        end
    | _ => acc
    end
  else acc.

Definition verification_code_of (ms : list (string * json.value)) : Z :=
  fold_left verification_code_step ms 0.

(** * Properties *)

(** ** The scanner of encoding/json

    The text kept with a value is the text it was read from, no value is
    read from nothing, and the fuel that [parse] gives is never used up. *)

Lemma append_assoc (a b c : string) : (a ++ b) ++ c = a ++ b ++ c.
Proof. induction a; simpl; congruence. Qed.

Lemma length_append (a b : string) :
  String.length (a ++ b) = (String.length a + String.length b)%nat.
Proof. induction a; simpl; congruence. Qed.

Lemma take_append (p r : string) : take (String.length p) (p ++ r) = p.
Proof. induction p; simpl; [destruct r |]; congruence. Qed.

Lemma consumed_append (p r : string) : consumed (p ++ r) r = p.
Proof.
  unfold consumed. rewrite length_append.
  replace (String.length p + String.length r - String.length r)%nat
    with (String.length p) by lia.
  apply take_append.
Qed.

Lemma splits_refl (s : string) : splits s s.
Proof. now exists "". Qed.

Lemma splits_trans (s r t : string) : splits s r -> splits r t -> splits s t.
Proof.
  intros [p ->] [q ->]. exists (p ++ q). now rewrite append_assoc.
Qed.

Lemma splits_cons (c : ascii) (s r : string) : splits s r -> splits (String c s) r.
Proof. intros [p ->]. now exists (String c p). Qed.

Lemma consumes_splits (s r : string) : consumes s r -> splits s r.
Proof. intros [p [_ ->]]. now exists p. Qed.

Lemma consumes_cons (c : ascii) (s r : string) :
  splits s r -> consumes (String c s) r.
Proof. intros [p ->]. exists (String c p). split; [discriminate | reflexivity]. Qed.

Lemma consumes_then (s r t : string) : consumes s r -> splits r t -> consumes s t.
Proof.
  intros [p [Hp ->]] [q ->]. exists (p ++ q). split.
  - destruct p; [contradiction | discriminate].
  - now rewrite append_assoc.
Qed.

Lemma splits_then (s r t : string) : splits s r -> consumes r t -> consumes s t.
Proof.
  intros [p ->] [q [Hq ->]]. exists (p ++ q). split.
  - destruct p; [assumption | discriminate].
  - now rewrite append_assoc.
Qed.

Lemma consumes_length (s r : string) :
  consumes s r -> (String.length r < String.length s)%nat.
Proof.
  intros [p [Hp ->]]. rewrite length_append.
  destruct p; [contradiction | simpl; lia].
Qed.

Lemma splits_length (s r : string) :
  splits s r -> (String.length r <= String.length s)%nat.
Proof. intros [p ->]. rewrite length_append. lia. Qed.

Lemma consumes_raw (s r raw : string) :
  raw <> "" -> s = raw ++ r -> consumes s r.
Proof. intros H ->. now exists raw. Qed.

Lemma consumed_raw (s r : string) :
  consumes s r -> consumed s r <> "" /\ s = consumed s r ++ r.
Proof. intros [p [Hp ->]]. now rewrite consumed_append. Qed.

Lemma skip_space_splits (s : string) : splits s (json.skip_space s).
Proof.
  induction s as [| c s IH]; simpl; [apply splits_refl |].
  destruct (json.isSpace c); [now apply splits_cons | apply splits_refl].
Qed.

Lemma closes_eq (c : ascii) (s r : string) :
  json.closes c s = Some r -> s = String c r.
Proof.
  destruct s as [| c' s]; simpl; [discriminate |].
  destruct (Ascii.eqb_spec c' c); [| discriminate].
  intros H. injection H as ->. now subst.
Qed.

Lemma digits_append (s d r : string) : json.digits s = (d, r) -> s = d ++ r.
Proof.
  revert d r. induction s as [| c s IH]; simpl; intros d r H.
  - now injection H as <- <-.
  - destruct (json.isDigit c).
    + destruct (json.digits s) as [d' r'] eqn:E. injection H as <- <-.
      simpl. f_equal. now apply IH.
    + now injection H as <- <-.
Qed.

Lemma prefix_append (p s r : string) : json.prefix p s = Some r -> s = p ++ r.
Proof.
  revert s. induction p as [| a p IH]; simpl; intros s H.
  - now injection H as ->.
  - destruct s as [| b s]; [discriminate |].
    destruct (Ascii.eqb_spec a b); [| discriminate].
    subst. simpl. f_equal. now apply IH.
Qed.

Lemma scan_string_append (s t r : string) :
  json.scan_string s = Some (t, r) -> s = t ++ String dquote r.
Proof.
  remember (String.length s) as n eqn:Hn.
  revert s t r Hn. induction n as [n IH] using lt_wf_ind.
  intros s t r Hn H. destruct s as [| c s1]; simpl in H; [discriminate |].
  destruct (Ascii.eqb_spec c dquote).
  { injection H as <- <-. now subst. }
  destruct (Ascii.eqb c backslash).
  - destruct s1 as [| e s2]; [discriminate |].
    destruct (json.isEscape e).
    + destruct (json.scan_string s2) as [[t' r'] |] eqn:E; [| discriminate].
      injection H as <- <-. simpl. do 2 f_equal.
      apply (IH (String.length s2)); [simpl in Hn; lia | reflexivity | assumption].
    + destruct (Ascii.eqb e "u"); [| discriminate].
      destruct s2 as [| h1 [| h2 [| h3 [| h4 s3]]]]; try discriminate.
      destruct (json.isHex h1 && json.isHex h2 && json.isHex h3 && json.isHex h4);
        [| discriminate].
      destruct (json.scan_string s3) as [[t' r'] |] eqn:E; [| discriminate].
      injection H as <- <-. simpl. do 6 f_equal.
      apply (IH (String.length s3)); [simpl in Hn; lia | reflexivity | assumption].
  - destruct (byte_val c <? 32); [discriminate |].
    destruct (json.scan_string s1) as [[t' r'] |] eqn:E; [| discriminate].
    injection H as <- <-. simpl. f_equal.
    apply (IH (String.length s1)); [simpl in Hn; lia | reflexivity | assumption].
Qed.

Lemma scan_number_append (s lit r : string) :
  json.scan_number s = Some (lit, r) -> lit <> "" /\ s = lit ++ r.
Proof.
  unfold json.scan_number. intros H.
  assert (Hi : forall x i y, json.scan_int x = Some (i, y) -> i <> "" /\ x = i ++ y).
  { intros x i y. destruct x as [| c x]; simpl; [discriminate |].
    destruct (Ascii.eqb_spec c "0") as [Hc | Hc].
    - intros E. injection E as <- <-. subst. split; [discriminate | reflexivity].
    - destruct (json.isDigit c); [| discriminate].
      destruct (json.digits x) as [d' r'] eqn:E. intros E'. injection E' as <- <-.
      split; [discriminate |]. simpl. f_equal. now apply digits_append. }
  assert (Hf : forall x f y, json.scan_frac x = Some (f, y) -> x = f ++ y).
  { intros x f y. destruct x as [| c x]; simpl.
    - intros E. now injection E as <- <-.
    - destruct (Ascii.eqb c ".").
      + destruct (json.digits x) as [[| a d'] r'] eqn:E; [discriminate |].
        intros E'. injection E' as <- <-. simpl. f_equal.
        exact (digits_append _ _ _ E).
      + intros E. now injection E as <- <-. }
  assert (He : forall x e y, json.scan_exp x = Some (e, y) -> x = e ++ y).
  { intros x e y. destruct x as [| c x]; simpl.
    - intros E. now injection E as <- <-.
    - destruct (Ascii.eqb c "e" || Ascii.eqb c "E").
      + destruct x as [| g x'].
        * simpl. discriminate.
        * destruct (Ascii.eqb g "+" || Ascii.eqb g "-").
          -- destruct (json.digits x') as [[| a d'] r'] eqn:E; [discriminate |].
             intros E'. injection E' as <- <-. simpl. do 2 f_equal.
             exact (digits_append _ _ _ E).
          -- destruct (json.digits (String g x')) as [[| a d'] r'] eqn:E;
               [discriminate |].
             intros E'. injection E' as <- <-. simpl. f_equal.
             exact (digits_append _ _ _ E).
      + intros E. now injection E as <- <-. }
  destruct s as [| c s'].
  - simpl in H. discriminate.
  - destruct (Ascii.eqb_spec c "-") as [Hc | Hc].
    + destruct (json.scan_int s') as [[i s1] |] eqn:Ei; [| discriminate].
      destruct (json.scan_frac s1) as [[f s2] |] eqn:Ef; [| discriminate].
      destruct (json.scan_exp s2) as [[e s3] |] eqn:Ee; [| discriminate].
      injection H as <- <-. split; [discriminate |].
      apply Hi in Ei. destruct Ei as [_ ->]. apply Hf in Ef. apply He in Ee.
      subst. simpl. now rewrite !append_assoc.
    + destruct (json.scan_int (String c s')) as [[i s1] |] eqn:Ei; [| discriminate].
      destruct (json.scan_frac s1) as [[f s2] |] eqn:Ef; [| discriminate].
      destruct (json.scan_exp s2) as [[e s3] |] eqn:Ee; [| discriminate].
      injection H as <- <-.
      apply Hi in Ei. destruct Ei as [Hne Hs]. apply Hf in Ef. apply He in Ee.
      split.
      * simpl. destruct i; [contradiction | discriminate].
      * rewrite Hs. subst. simpl. now rewrite !append_assoc.
Qed.

#[local] Arguments json.prefix : simpl never.
#[local] Arguments json.scan_number : simpl never.
#[local] Arguments json.scan_string : simpl never.
#[local] Arguments json.skip_space : simpl never.
#[local] Arguments json.closes : simpl never.

Lemma scan_sound (fuel : nat) : forall depth s,
  (forall v r, json.scan_value fuel depth s = json.Scanned v r ->
     json.raw_of v <> "" /\ s = json.raw_of v ++ r)
  /\ (forall vs r, json.scan_elems fuel depth s = json.Scanned vs r ->
     consumes s r /\ Forall (fun v => json.raw_of v <> "") vs)
  /\ (forall ms r, json.scan_members fuel depth s = json.Scanned ms r ->
     consumes s r /\ Forall (fun kv => json.raw_of (snd kv) <> "") ms).
Proof.
  induction fuel as [| fuel IH]; intros depth s.
  - repeat split; discriminate.
  - assert (IHv := fun d s => proj1 (IH d s)).
    assert (IHe := fun d s => proj1 (proj2 (IH d s))).
    assert (IHm := fun d s => proj2 (proj2 (IH d s))).
    clear IH. split; [| split].
    + intros v r H. simpl in H.
      destruct s as [| c s1]; [discriminate |].
      destruct (Ascii.eqb_spec c "[") as [Hc | _].
      { destruct (json.maxNestingDepth <? depth + 1); [discriminate |].
        destruct (json.closes "]" (json.skip_space s1)) as [r0 |] eqn:Ecl.
        - injection H as <- <-. simpl. apply consumed_raw.
          apply consumes_cons. apply closes_eq in Ecl.
          eapply splits_trans; [apply skip_space_splits |].
          rewrite Ecl. apply splits_cons, splits_refl.
        - destruct (json.scan_elems fuel (depth + 1) (json.skip_space s1))
            as [vs r0 | |] eqn:Ee; try discriminate.
          injection H as <- <-. simpl. apply consumed_raw.
          apply consumes_cons.
          eapply splits_trans; [apply skip_space_splits |].
          apply consumes_splits. apply (IHe _ _ _ _ Ee). }
      destruct (Ascii.eqb_spec c "{") as [Hc | _].
      { destruct (json.maxNestingDepth <? depth + 1); [discriminate |].
        destruct (json.closes "}" (json.skip_space s1)) as [r0 |] eqn:Ecl.
        - injection H as <- <-. simpl. apply consumed_raw.
          apply consumes_cons. apply closes_eq in Ecl.
          eapply splits_trans; [apply skip_space_splits |].
          rewrite Ecl. apply splits_cons, splits_refl.
        - destruct (json.scan_members fuel (depth + 1) (json.skip_space s1))
            as [ms r0 | |] eqn:Ee; try discriminate.
          injection H as <- <-. simpl. apply consumed_raw.
          apply consumes_cons.
          eapply splits_trans; [apply skip_space_splits |].
          apply consumes_splits. apply (IHm _ _ _ _ Ee). }
      destruct (Ascii.eqb_spec c dquote) as [Hc | _].
      { destruct (json.scan_string s1) as [[t r0] |] eqn:Es; [| discriminate].
        injection H as <- <-. apply scan_string_append in Es. subst.
        split; [discriminate |]. simpl. now rewrite append_assoc. }
      destruct (Ascii.eqb c "-" || json.isDigit c).
      { destruct (json.scan_number (String c s1)) as [[lit r0] |] eqn:En;
          [| discriminate].
        injection H as <- <-. now apply scan_number_append. }
      destruct (Ascii.eqb c "t").
      { destruct (json.prefix "true" (String c s1)) as [r0 |] eqn:Ep;
          [| discriminate].
        injection H as <- <-. apply prefix_append in Ep.
        split; [discriminate | exact Ep]. }
      destruct (Ascii.eqb c "f").
      { destruct (json.prefix "false" (String c s1)) as [r0 |] eqn:Ep;
          [| discriminate].
        injection H as <- <-. apply prefix_append in Ep.
        split; [discriminate | exact Ep]. }
      destruct (Ascii.eqb c "n"); [| discriminate].
      destruct (json.prefix "null" (String c s1)) as [r0 |] eqn:Ep;
        [| discriminate].
      injection H as <- <-. apply prefix_append in Ep.
      split; [discriminate | exact Ep].
    + intros vs r H. simpl in H.
      destruct (json.scan_value fuel depth s) as [v r0 | |] eqn:Ev;
        try discriminate.
      destruct (IHv _ _ _ _ Ev) as [Hne Hs].
      assert (Hv : consumes s r0) by (eapply consumes_raw; eauto).
      destruct (json.skip_space r0) as [| c r1] eqn:Esk; [discriminate |].
      assert (Hr1 : consumes s r1).
      { eapply consumes_then; [exact Hv |].
        eapply splits_trans; [apply skip_space_splits |].
        rewrite Esk. apply splits_cons, splits_refl. }
      destruct (Ascii.eqb c "]").
      { injection H as <- <-. split; [assumption |]. now constructor. }
      destruct (Ascii.eqb c ","); [| discriminate].
      destruct (json.scan_elems fuel depth (json.skip_space r1))
        as [vs' r2 | |] eqn:Ee; try discriminate.
      injection H as <- <-. destruct (IHe _ _ _ _ Ee) as [Hc Hall].
      split; [| now constructor].
      eapply consumes_then; [exact Hr1 |].
      eapply splits_trans; [apply skip_space_splits |].
      now apply consumes_splits.
    + intros ms r H. simpl in H.
      destruct s as [| q s1]; [discriminate |].
      destruct (Ascii.eqb q dquote); [| discriminate].
      destruct (json.scan_string s1) as [[k r0] |] eqn:Es; [| discriminate].
      apply scan_string_append in Es.
      assert (H0 : consumes (String q s1) r0).
      { apply consumes_cons. rewrite Es. exists (k ++ String dquote "").
        now rewrite append_assoc. }
      destruct (json.skip_space r0) as [| colon r1] eqn:Esk; [discriminate |].
      destruct (Ascii.eqb colon ":"); [| discriminate].
      assert (H1 : consumes (String q s1) r1).
      { eapply consumes_then; [exact H0 |].
        eapply splits_trans; [apply skip_space_splits |].
        rewrite Esk. apply splits_cons, splits_refl. }
      destruct (json.scan_value fuel depth (json.skip_space r1))
        as [v r2 | |] eqn:Ev; try discriminate.
      destruct (IHv _ _ _ _ Ev) as [Hne Hs].
      assert (H2 : consumes (String q s1) r2).
      { eapply consumes_then; [exact H1 |].
        eapply splits_trans; [apply skip_space_splits |].
        apply consumes_splits. eapply consumes_raw; eauto. }
      destruct (json.skip_space r2) as [| c r3] eqn:Esk2; [discriminate |].
      assert (H3 : consumes (String q s1) r3).
      { eapply consumes_then; [exact H2 |].
        eapply splits_trans; [apply skip_space_splits |].
        rewrite Esk2. apply splits_cons, splits_refl. }
      destruct (Ascii.eqb c "}").
      { injection H as <- <-. split; [assumption |]. now constructor. }
      destruct (Ascii.eqb c ","); [| discriminate].
      destruct (json.scan_members fuel depth (json.skip_space r3))
        as [ms' r4 | |] eqn:Em; try discriminate.
      injection H as <- <-. destruct (IHm _ _ _ _ Em) as [Hc Hall].
      split; [| now constructor].
      eapply consumes_then; [exact H3 |].
      eapply splits_trans; [apply skip_space_splits |].
      now apply consumes_splits.
Qed.

Lemma skip_space_length (s : string) :
  (String.length (json.skip_space s) <= String.length s)%nat.
Proof. apply splits_length, skip_space_splits. Qed.

Lemma scan_fuel (fuel : nat) : forall depth s,
  ((2 * String.length s + 1 <= fuel)%nat ->
     json.scan_value fuel depth s <> json.OutOfFuel)
  /\ ((2 * String.length s + 2 <= fuel)%nat ->
     json.scan_elems fuel depth s <> json.OutOfFuel)
  /\ ((2 * String.length s + 2 <= fuel)%nat ->
     json.scan_members fuel depth s <> json.OutOfFuel).
Proof.
  induction fuel as [| fuel IH]; intros depth s.
  - repeat split; lia.
  - assert (IHv := fun d s => proj1 (IH d s)).
    assert (IHe := fun d s => proj1 (proj2 (IH d s))).
    assert (IHm := fun d s => proj2 (proj2 (IH d s))).
    clear IH. split; [| split]; intros Hf; simpl.
    + destruct s as [| c s1]; [discriminate |]. simpl in Hf.
      pose proof (skip_space_length s1) as Hsk.
      destruct (Ascii.eqb c "[").
      { destruct (json.maxNestingDepth <? depth + 1); [discriminate |].
        destruct (json.closes "]" (json.skip_space s1)); [discriminate |].
        specialize (IHe (depth + 1) (json.skip_space s1)).
        destruct (json.scan_elems fuel (depth + 1) (json.skip_space s1));
          try discriminate.
        intros _. apply IHe; [lia | reflexivity]. }
      destruct (Ascii.eqb c "{").
      { destruct (json.maxNestingDepth <? depth + 1); [discriminate |].
        destruct (json.closes "}" (json.skip_space s1)); [discriminate |].
        specialize (IHm (depth + 1) (json.skip_space s1)).
        destruct (json.scan_members fuel (depth + 1) (json.skip_space s1));
          try discriminate.
        intros _. apply IHm; [lia | reflexivity]. }
      destruct (Ascii.eqb c dquote).
      { destruct (json.scan_string s1) as [[t r0] |]; discriminate. }
      destruct (Ascii.eqb c "-" || json.isDigit c).
      { destruct (json.scan_number (String c s1)) as [[t r0] |]; discriminate. }
      destruct (Ascii.eqb c "t").
      { destruct (json.prefix "true" (String c s1)); discriminate. }
      destruct (Ascii.eqb c "f").
      { destruct (json.prefix "false" (String c s1)); discriminate. }
      destruct (Ascii.eqb c "n"); [| discriminate].
      destruct (json.prefix "null" (String c s1)); discriminate.
    + specialize (IHv depth s).
      destruct (json.scan_value fuel depth s) as [v r0 | |] eqn:Ev;
        [| discriminate | intros _; apply IHv; [lia | reflexivity]].
      destruct (scan_sound fuel depth s) as [Hs _].
      destruct (Hs _ _ Ev) as [Hne Heq].
      pose proof (consumes_length _ _ (consumes_raw _ _ _ Hne Heq)) as Hlen.
      pose proof (skip_space_length r0) as Hsk.
      destruct (json.skip_space r0) as [| c r1] eqn:Esk; [discriminate |].
      simpl in Hsk.
      destruct (Ascii.eqb c "]"); [discriminate |].
      destruct (Ascii.eqb c ","); [| discriminate].
      pose proof (skip_space_length r1) as Hsk1.
      specialize (IHe depth (json.skip_space r1)).
      destruct (json.scan_elems fuel depth (json.skip_space r1));
        try discriminate.
      intros _. apply IHe; [lia | reflexivity].
    + destruct s as [| q s1]; [discriminate |]. simpl in Hf.
      destruct (Ascii.eqb q dquote); [| discriminate].
      destruct (json.scan_string s1) as [[k r0] |] eqn:Es; [| discriminate].
      apply scan_string_append in Es.
      assert (H0 : (String.length r0 < String.length s1)%nat).
      { rewrite Es, length_append. simpl. lia. }
      pose proof (skip_space_length r0) as Hsk.
      destruct (json.skip_space r0) as [| colon r1] eqn:Esk; [discriminate |].
      simpl in Hsk.
      destruct (Ascii.eqb colon ":"); [| discriminate].
      pose proof (skip_space_length r1) as Hsk1.
      specialize (IHv depth (json.skip_space r1)).
      destruct (json.scan_value fuel depth (json.skip_space r1))
        as [v r2 | |] eqn:Ev; [| discriminate | intros _; apply IHv; [lia | reflexivity]].
      destruct (scan_sound fuel depth (json.skip_space r1)) as [Hs _].
      destruct (Hs _ _ Ev) as [Hne Heq].
      pose proof (consumes_length _ _ (consumes_raw _ _ _ Hne Heq)) as Hlen.
      pose proof (skip_space_length r2) as Hsk2.
      destruct (json.skip_space r2) as [| c r3] eqn:Esk2; [discriminate |].
      simpl in Hsk2.
      destruct (Ascii.eqb c "}"); [discriminate |].
      destruct (Ascii.eqb c ","); [| discriminate].
      pose proof (skip_space_length r3) as Hsk3.
      specialize (IHm depth (json.skip_space r3)).
      destruct (json.scan_members fuel depth (json.skip_space r3));
        try discriminate.
      intros _. apply IHm; [lia | reflexivity].
Qed.

(** [parse] never runs out of fuel: it refuses an input only when the input
    is not one JSON value. *)
Lemma parse_fuel (data : string) :
  json.scan_value (json.fuel_for (json.skip_space data)) 0
    (json.skip_space data) <> json.OutOfFuel.
Proof. apply scan_fuel. unfold json.fuel_for. lia. Qed.

Lemma scan_object_members (fuel : nat) (depth : Z) (s raw r : string)
  (ms : list (string * json.value)) :
  json.scan_value fuel depth s = json.Scanned (json.Object raw ms) r ->
  Forall (fun kv => json.raw_of (snd kv) <> "") ms.
Proof.
  destruct fuel as [| fuel]; [discriminate |]. simpl.
  destruct s as [| c s1]; [discriminate |].
  destruct (Ascii.eqb c "[").
  { destruct (json.maxNestingDepth <? depth + 1); [discriminate |].
    destruct (json.closes "]" (json.skip_space s1)); [discriminate |].
    destruct (json.scan_elems fuel (depth + 1) (json.skip_space s1));
      discriminate. }
  destruct (Ascii.eqb c "{").
  { destruct (json.maxNestingDepth <? depth + 1); [discriminate |].
    destruct (json.closes "}" (json.skip_space s1)).
    - intros H. injection H as _ <- _. constructor.
    - destruct (json.scan_members fuel (depth + 1) (json.skip_space s1))
        as [ms' r' | |] eqn:Em; try discriminate.
      intros H. injection H as _ <- _.
      apply (proj2 (proj2 (scan_sound fuel (depth + 1) (json.skip_space s1)))
               _ _ Em). }
  destruct (Ascii.eqb c dquote).
  { destruct (json.scan_string s1) as [[t r0] |]; discriminate. }
  destruct (Ascii.eqb c "-" || json.isDigit c).
  { destruct (json.scan_number (String c s1)) as [[t r0] |]; discriminate. }
  destruct (Ascii.eqb c "t").
  { destruct (json.prefix "true" (String c s1)); discriminate. }
  destruct (Ascii.eqb c "f").
  { destruct (json.prefix "false" (String c s1)); discriminate. }
  destruct (Ascii.eqb c "n"); [| discriminate].
  destruct (json.prefix "null" (String c s1)); discriminate.
Qed.

Lemma parse_object_members (data raw : string) (ms : list (string * json.value)) :
  json.parse data = Some (json.Object raw ms) ->
  Forall (fun kv => json.raw_of (snd kv) <> "") ms.
Proof.
  unfold json.parse.
  destruct (json.scan_value (json.fuel_for (json.skip_space data)) 0
              (json.skip_space data)) as [v r | |] eqn:E; try discriminate.
  destruct (json.skip_space r); [| discriminate].
  intros H. injection H as ->. eapply scan_object_members, E.
Qed.


(** ** The decoding of the envelope *)

Lemma find_field_In {T} (ty : json.structType T) (key : string) (f : json.field T) :
  json.find_field ty key = Some f -> In f (json.fields ty).
Proof.
  unfold json.find_field.
  destruct (find _ (json.fields ty)) as [f0 |] eqn:E.
  - intros H. injection H as <-. now apply find_some in E.
  - intros H. now apply find_some in H.
Qed.

Lemma store_members_errors (ms : list (string * json.value)) :
  Forall (fun kv => json.raw_of (snd kv) <> "") ms ->
  forall t saved t' e,
    json.store_members BaseResponse.ty ms t saved = (t', e) ->
    (BaseResponse.Errors t' = ""
     <-> BaseResponse.Errors t = ""
         /\ Forall (fun kv => selects BaseResponse.ty "errors" (fst kv) = false) ms).
Proof.
  induction 1 as [| [k v] ms Hv Hms IH]; intros t saved t' e; simpl.
  - intros H. injection H as <- _. split; [now split | tauto].
  - rewrite Forall_cons_iff. unfold selects at 1. simpl fst. simpl in Hv.
    destruct (json.find_field BaseResponse.ty (json.unquote k)) as [f |] eqn:Ef.
    + pose proof (find_field_In _ _ _ Ef) as Hin. simpl in Hin.
      destruct Hin as [<- | [<- | []]]; simpl; intros H; apply IH in H;
        rewrite H; simpl.
      * tauto.
      * split; [intros [H1 _]; contradiction | intros [_ [H2 _]]; discriminate].
    + intros H. apply IH in H. rewrite H. tauto.
Qed.

(** The field [Errors] of a decoded envelope holds no bytes exactly when the
    body carries no errors region. *)
Lemma envelope_errors_absent (body : string) (br : BaseResponse.t) :
  decode_envelope body = (br, None) ->
  (BaseResponse.Errors br = "" <-> errors_absent body).
Proof.
  unfold decode_envelope, json.Unmarshal, errors_absent.
  destruct (json.parse body) as [v |] eqn:Ep; [| discriminate].
  destruct v as [| b | lit | t | raw vs | raw ms]; simpl; try discriminate.
  - intros H. injection H as <-. simpl. split; auto.
  - intros H.
    apply (store_members_errors ms (parse_object_members _ _ _ Ep)) in H.
    rewrite H. simpl. split.
    + intros [_ Hall]. right. now exists raw, ms.
    + intros [Hn | [raw' [ms' [Heq Hall]]]]; [discriminate |].
      injection Heq as _ <-. now split.
Qed.

Lemma store_members_code_message (ms : list (string * json.value)) :
  forall t saved t' e,
    json.store_members ErrorResponse.ty ms t saved = (t', e) ->
    ErrorResponse.Code t' = fold_left code_step ms (ErrorResponse.Code t)
    /\ ErrorResponse.Message t'
       = fold_left message_step ms (ErrorResponse.Message t).
Proof.
  induction ms as [| [k v] ms IH]; intros t saved t' e; simpl.
  - intros H. injection H as <- _. auto.
  - unfold code_step at 2, message_step at 2, selects. simpl fst. simpl snd.
    destruct (json.find_field ErrorResponse.ty (json.unquote k)) as [f |] eqn:Ef.
    + pose proof (find_field_In _ _ _ Ef) as Hin. simpl in Hin.
      destruct Hin as [<- | [<- | [<- | []]]]; simpl.
      * destruct v; simpl; intros H; apply IH in H; exact H.
      * destruct v as [| b | lit | inner | raw vs | raw ms']; simpl;
          try (intros H; apply IH in H; exact H).
        destruct (json.ParseInt lit); simpl; intros H; apply IH in H; exact H.
      * destruct v; simpl; intros H; apply IH in H; exact H.
    + intros H. apply IH in H. exact H.
Qed.

(** The code and the message of a decoded errors object are those its
    members give. *)
Lemma decode_errors_object (errors raw : string)
  (ms : list (string * json.value)) (er : ErrorResponse.t)
  (e : option json.error) :
  json.parse errors = Some (json.Object raw ms) ->
  decode_errors errors = (er, e) ->
  ErrorResponse.Code er = code_of ms /\ ErrorResponse.Message er = message_of ms.
Proof.
  unfold decode_errors, json.Unmarshal. intros ->. simpl.
  apply store_members_code_message.
Qed.

(** ** The decoder on sample inputs *)

Example parse_accepts :
  json.parse (j " {'a' : [1, -2.5e+3, true, null, 'xé'], 'b' : {}} ")
  = Some (json.Object (j "{'a' : [1, -2.5e+3, true, null, 'xé'], 'b' : {}}")
            [("a", json.Array (j "[1, -2.5e+3, true, null, 'xé']")
                     [json.Number "1"; json.Number "-2.5e+3"; json.Bool true;
                      json.Null; json.Str "xé"]);
             ("b", json.Object "{}" [])]).
Proof. reflexivity. Qed.

Example parse_refuses :
  map json.parse ["01"; "[1,]"; "1."; "-"; j "{'a':1,}"; j "{a:1}"; "nul";
                  "[1] 2"; ""; j "'\x'"]
  = [None; None; None; None; None; None; None; None; None; None].
Proof. reflexivity. Qed.

(** The errors region is kept byte for byte: white space between the
    brackets makes it another text than the empty list. *)
Example envelope_keeps_bytes :
  decode_envelope (j "{ 'data' : {'code' : 100} , 'errors' : [ ] }")
  = (BaseResponse.mk (j "{'code' : 100}") "[ ]", None)
  /\ checkResponse (j "{ 'data' : {'code' : 100} , 'errors' : [ ] }")
     = ("", Some (json_error (json.UnmarshalTypeError
                                "array" "zarinpalgo.ErrorResponse" "" ""))).
Proof. split; reflexivity. Qed.

(** Keys are matched without regard to case, and the last of two members
    that select one field is the one kept. *)
Example envelope_keys :
  decode_envelope (j "{'Errors':{'code':1},'DATA':1,'errors':[],'other':0}")
  = (BaseResponse.mk "1" "[]", None).
Proof. reflexivity. Qed.

Example envelope_not_an_object :
  map decode_envelope ["[]"; "7"; "null"; "<html>"]
  = [(BaseResponse.zero,
      Some (json.UnmarshalTypeError "array" "zarinpalgo.BaseResponse" "" ""));
     (BaseResponse.zero,
      Some (json.UnmarshalTypeError "number" "zarinpalgo.BaseResponse" "" ""));
     (BaseResponse.zero, None);
     (BaseResponse.zero, Some (json.SyntaxError "<html>"))].
Proof. reflexivity. Qed.

Example errors_decoded :
  decode_errors (j "{'message':'Merchant \'x\' not found','code':-74,'validations':[]}")
  = (ErrorResponse.mk (j "Merchant 'x' not found") (-74) (Some []), None).
Proof. reflexivity. Qed.

Example errors_ill_typed :
  map (fun e => snd (decode_errors (j e)))
    ["{'code':'-9'}"; "{'code':1.0}"; "{'code':9223372036854775808}";
     "{'message':5}"; "{'validations':{}}"; "{'validations':[1e999]}";
     "{'code':null,'message':null,'validations':null}"]
  = [Some (json.UnmarshalTypeError "string" "int" "ErrorResponse" "code");
     Some (json.UnmarshalTypeError "number 1.0" "int" "ErrorResponse" "code");
     Some (json.UnmarshalTypeError "number 9223372036854775808" "int"
             "ErrorResponse" "code");
     Some (json.UnmarshalTypeError "number" "string" "ErrorResponse" "message");
     Some (json.UnmarshalTypeError "object" "[]interface {}" "ErrorResponse"
             "validations");
     Some (json.UnmarshalTypeError "number 1e999" "float64" "ErrorResponse"
             "validations");
     None].
Proof. reflexivity. Qed.

(** ** The text of a gateway error determines its code and message *)






(** ** checkResponse *)

Lemma checkResponse_unfold (body : string) :
  checkResponse body =
  match decode_envelope body with
  | (_, Some e) => ("", Some (json_error e))
  | (br, None) =>
      if isEmptyErrors (BaseResponse.Errors br)
      then (BaseResponse.Data br, None)
      else
        match decode_errors (BaseResponse.Errors br) with
        | (_, Some e) => ("", Some (json_error e))
        | (er, None) =>
            ("", Some (errorString (gateway_text (ErrorResponse.Code er)
                                      (ErrorResponse.Message er))))
        end
  end.
Proof.
  unfold checkResponse, decode_envelope, decode_errors, lift_json, gateway_text.
  destruct (json.Unmarshal BaseResponse.ty pkg body BaseResponse.zero)
    as [br [e |]]; simpl; [reflexivity |].
  destruct (isEmptyErrors (BaseResponse.Errors br)); simpl; [reflexivity |].
  destruct (json.Unmarshal ErrorResponse.ty pkg (BaseResponse.Errors br)
              ErrorResponse.zero) as [er [e |]]; reflexivity.
Qed.

(** C1, as stated, fails on an errors region that is the empty JSON string:
    the region is the two bytes of the quotes, which [isEmptyErrors] does not
    take for empty; it is then decoded as an [ErrorResponse], which a string
    is not, and the data region is not returned. *)
Lemma checkResponse_empty_string_errors :
  let body := j "{'data':{'code':100},'errors':''}" in
  let br := BaseResponse.mk (j "{'code':100}") (j "''") in
  decode_envelope body = (br, None)
  /\ spec_errors_empty (BaseResponse.Errors br)
  /\ checkResponse body =
     ("", Some (json_error (json.UnmarshalTypeError
                              "string" "zarinpalgo.ErrorResponse" "" "")))
  /\ fst (checkResponse body) <> BaseResponse.Data br.
Proof.
  cbv zeta. split; [reflexivity |]. split; [| split].
  - right; right; left; reflexivity.
  - reflexivity.
  - discriminate.
Qed.

(** C1 (amended): when the errors region of a decoded envelope is, byte for
    byte, the empty list or the empty object, or the body carries no errors
    region at all, [checkResponse] returns the data region unchanged and a
    nil error. *)
Theorem checkResponse_empty_errors (body : string) (br : BaseResponse.t) :
  decode_envelope body = (br, None) ->
  BaseResponse.Errors br = "[]" \/ BaseResponse.Errors br = "{}"
  \/ errors_absent body ->
  checkResponse body = (BaseResponse.Data br, None).
Proof.
  intros Hd He. rewrite checkResponse_unfold, Hd.
  destruct He as [-> | [-> | Ha]]; [reflexivity | reflexivity |].
  apply (envelope_errors_absent _ _ Hd) in Ha. now rewrite Ha.
Qed.

Lemma checkResponse_empty_errors_witness :
  checkResponse (j "{'data':{'code':100,'authority':'A36'},'errors':[]}")
  = (j "{'code':100,'authority':'A36'}", None).
Proof.
  apply (checkResponse_empty_errors _
           (BaseResponse.mk (j "{'code':100,'authority':'A36'}") "[]")).
  - reflexivity.
  - left; reflexivity.
Defined.




(** C4: [checkResponse] returns an error of the JSON decoder exactly when
    the body does not decode as the envelope, or the errors region is not
    classified empty and does not decode as an [ErrorResponse]; the error
    returned is the decoder's own. *)
Theorem checkResponse_malformed_iff (body : string) (e : json.error) :
  snd (checkResponse body) = Some (json_error e)
  <->
  (exists br, decode_envelope body = (br, Some e))
  \/ (exists br er,
        decode_envelope body = (br, None)
        /\ isEmptyErrors (BaseResponse.Errors br) = false
        /\ decode_errors (BaseResponse.Errors br) = (er, Some e)).
Proof.
  rewrite checkResponse_unfold.
  destruct (decode_envelope body) as [br [e0 |]] eqn:Hd.
  - simpl. split.
    + intros H. injection H as ->. left. now exists br.
    + intros [[br' H] | [br' [er [H _]]]]; [| discriminate].
      injection H as _ ->. reflexivity.
  - destruct (isEmptyErrors (BaseResponse.Errors br)) eqn:Hc.
    + simpl. split; [discriminate |].
      intros [[br' H] | [br' [er [H [Hc' _]]]]]; [discriminate |].
      injection H as <-. congruence.
    + destruct (decode_errors (BaseResponse.Errors br)) as [er [e1 |]] eqn:He;
        simpl.
      * split.
        -- intros H. injection H as ->. right. now exists br, er.
        -- intros [[br' H] | [br' [er' [H [_ He']]]]]; [discriminate |].
           injection H as <-. rewrite He in He'. injection He' as _ ->.
           reflexivity.
      * split; [discriminate |].
        intros [[br' H] | [br' [er' [H [_ He']]]]]; [discriminate |].
        injection H as <-. rewrite He in He'. discriminate.
Qed.

(** C9: when the errors region of a decoded envelope is the literal [null],
    it is not classified empty, it decodes as an [ErrorResponse] with every
    field at its zero value, and [checkResponse] returns no data and the
    error made of code 0 and an empty message, whatever the data region. *)
Theorem checkResponse_null_errors (body : string) (br : BaseResponse.t) :
  decode_envelope body = (br, None) ->
  BaseResponse.Errors br = "null" ->
  isEmptyErrors (BaseResponse.Errors br) = false
  /\ decode_errors (BaseResponse.Errors br) = (ErrorResponse.mk "" 0 None, None)
  /\ checkResponse body = ("", Some (errorString "error code: 0, error: ")).
Proof.
  intros Hd He. rewrite checkResponse_unfold, Hd, He.
  repeat split.
Qed.

Lemma checkResponse_null_errors_witness :
  checkResponse (j "{'data':{'code':100,'ref_id':201},'errors':null}")
  = ("", Some (errorString "error code: 0, error: ")).
Proof.
  apply (checkResponse_null_errors _
           (BaseResponse.mk (j "{'code':100,'ref_id':201}") "null"));
    reflexivity.
Defined.

(** ** The client *)

Section ClientFacts.

Variable P : Platform.

Lemma preserves_ret {A} (a : A) : preserves (P := P) (ret a).
Proof. intros s. reflexivity. Qed.

Lemma preserves_load {A} (f : Zarinpal.t -> A) : preserves (P := P) (load f).
Proof. intros s. reflexivity. Qed.

Lemma preserves_call {A} (f : World P -> A * World P) : preserves (call f).
Proof. intros s. unfold call. destruct (f (world s)). reflexivity. Qed.

Lemma preserves_bind {A B} (m : M P A) (k : A -> M P B) :
  preserves m -> (forall a, preserves (k a)) -> preserves (bind m k).
Proof.
  intros Hm Hk s. unfold bind.
  specialize (Hm s). destruct (m s) as [a s1]. simpl in Hm.
  rewrite <- Hm. apply Hk.
Qed.

(** An assignment to the receiver is what [preserves] rules out. *)
Lemma assign_not_preserved (z : Zarinpal.t) (s : State P) :
  this (snd (assign P z s)) = z.
Proof. reflexivity. Qed.

Lemma CheckPaymentStatus_unfold (ctx : Context P) (amount : Z)
  (authority : string) (s : State P) :
  CheckPaymentStatus P ctx amount authority s =
  match VerifyPayment P ctx amount authority s with
  | ((_, Some err), s') =>
      ((PaymentStatus.mk false false 0 (Error P err), Some err), s')
  | ((v, None), s') => ((classify v, None), s')
  end.
Proof.
  unfold CheckPaymentStatus, bind, ret.
  destruct (VerifyPayment P ctx amount authority s) as [[v [err |]] s'];
    [reflexivity |].
  unfold classify, PaymentCodeSuccess, PaymentCodeAlreadyVerified.
  destruct (PaymentVerificationResponse.Code v =? 100);
    [| destruct (PaymentVerificationResponse.Code v =? 101)]; reflexivity.
Qed.

End ClientFacts.

Create HintDb frame.
#[local] Hint Resolve preserves_ret preserves_load preserves_call : frame.

(** One step of a frame proof: split a sequence, or take the cases of the
    value the code branches on. *)
Ltac frame_step :=
  match goal with
  | |- preserves (bind _ _) => apply preserves_bind; [| intros ?]
  | |- preserves (match ?x with _ => _ end) => destruct x
  | |- preserves (let _ := _ in _) => cbv zeta
  | |- preserves _ => solve [auto with frame]
  end.

Lemma NewPayment_preserves (P : Platform) ctx amount description metadata
  callbackURL wages :
  preserves (NewPayment P ctx amount description metadata callbackURL wages).
Proof. unfold NewPayment. repeat frame_step. Qed.

Lemma VerifyPayment_preserves (P : Platform) ctx amount authority :
  preserves (VerifyPayment P ctx amount authority).
Proof. unfold VerifyPayment. repeat frame_step. Qed.

Lemma CheckPaymentStatus_preserves (P : Platform) ctx amount authority :
  preserves (CheckPaymentStatus P ctx amount authority).
Proof.
  unfold CheckPaymentStatus.
  apply preserves_bind; [apply VerifyPayment_preserves |].
  intros r. repeat frame_step.
Qed.

Lemma GetPaymentURL_preserves (P : Platform) authority :
  preserves (GetPaymentURL P authority).
Proof. unfold GetPaymentURL. repeat frame_step. Qed.

(** C2: once [VerifyPayment] has returned a response [v] and no error,
    [CheckPaymentStatus] returns the status that the classification of the
    specification gives [v], and no error: the status depends on [v] alone,
    and its flags are (true, false) on code 100, (true, true) on code 101
    and (false, false) on every other code. *)
Theorem CheckPaymentStatus_classifies (P : Platform) (ctx : Context P)
  (amount : Z) (authority : string) (s s' : State P)
  (v : PaymentVerificationResponse.t) :
  VerifyPayment P ctx amount authority s = ((v, None), s') ->
  CheckPaymentStatus P ctx amount authority s = ((classify v, None), s')
  /\ (PaymentVerificationResponse.Code v = 100 ->
      PaymentStatus.IsSuccessful (classify v) = true
      /\ PaymentStatus.IsRepeated (classify v) = false)
  /\ (PaymentVerificationResponse.Code v = 101 ->
      PaymentStatus.IsSuccessful (classify v) = true
      /\ PaymentStatus.IsRepeated (classify v) = true)
  /\ (PaymentVerificationResponse.Code v <> 100 ->
      PaymentVerificationResponse.Code v <> 101 ->
      PaymentStatus.IsSuccessful (classify v) = false
      /\ PaymentStatus.IsRepeated (classify v) = false).
Proof.
  intros Hv. rewrite CheckPaymentStatus_unfold, Hv.
  split; [reflexivity |].
  unfold classify; simpl.
  repeat split; intros; try (rewrite H; reflexivity).
  all: destruct (Z.eqb_spec (PaymentVerificationResponse.Code v) 100);
    [contradiction |];
    destruct (Z.eqb_spec (PaymentVerificationResponse.Code v) 101);
    [contradiction | reflexivity].
Qed.

Lemma CheckPaymentStatus_classifies_witness :
  let P := canned (j "{'data':{'code':101,'message':'Verified','card_pan':'502229******5995','ref_id':201,'fee_type':'Merchant','fee':0},'errors':[]}") in
  CheckPaymentStatus P tt 10000 "A000000000000000000000000000217885159"
    (@mkState P (NewWithMode "merchant" true) 0%nat)
  = ((PaymentStatus.mk true true 201 "Verified", None),
     @mkState P (NewWithMode "merchant" true) 1%nat).
Proof.
  intros P.
  refine (proj1 (CheckPaymentStatus_classifies P tt 10000 _ _ _
    (PaymentVerificationResponse.mk 101 "Verified" "" "502229******5995" 201
       "Merchant" 0) _)).
  reflexivity.
Defined.

(** C5: once [VerifyPayment] has returned a response and no error, the
    status that [CheckPaymentStatus] returns has the message and the
    reference identifier of that response, whatever its code. *)
Theorem CheckPaymentStatus_copies (P : Platform) (ctx : Context P)
  (amount : Z) (authority : string) (s s' : State P)
  (v : PaymentVerificationResponse.t) :
  VerifyPayment P ctx amount authority s = ((v, None), s') ->
  let status := fst (fst (CheckPaymentStatus P ctx amount authority s)) in
  PaymentStatus.Message status = PaymentVerificationResponse.Message v
  /\ PaymentStatus.RefID status = PaymentVerificationResponse.RefID v.
Proof.
  intros Hv. rewrite CheckPaymentStatus_unfold, Hv. split; reflexivity.
Qed.

Lemma CheckPaymentStatus_copies_witness :
  let P := canned (j "{'data':{'code':-51,'message':'Session is not valid','ref_id':7},'errors':[]}") in
  let status :=
    fst (fst (CheckPaymentStatus P tt 10000 "A36"
                (@mkState P (NewWithMode "merchant" false) 0%nat))) in
  PaymentStatus.Message status = "Session is not valid"
  /\ PaymentStatus.RefID status = 7.
Proof.
  intros P.
  refine (CheckPaymentStatus_copies P tt 10000 "A36" _
    (@mkState P (NewWithMode "merchant" false) 1%nat)
    (PaymentVerificationResponse.mk (-51) "Session is not valid" "" "" 7 "" 0) _).
  reflexivity.
Defined.

(** C6: [GetPaymentURL] returns the payment base URL of the client followed
    by the authority, for every authority, and touches nothing; on the
    sandbox client and the authority ABC123 that is
    https://sandbox.zarinpal.com/pg/StartPay/ABC123. *)
Theorem GetPaymentURL_concat (P : Platform) (authority : string) (s : State P) :
  GetPaymentURL P authority s
  = (Zarinpal.PaymentBaseURL (this s) ++ authority, s)
  /\ forall merchantID w,
       fst (GetPaymentURL P "ABC123"
              (mkState (NewWithMode merchantID true) w))
       = "https://sandbox.zarinpal.com/pg/StartPay/ABC123".
Proof. split; reflexivity. Qed.

(** C7: the base URLs that [NewWithMode] sets depend on the sandbox flag
    alone: both are the paths /pg/v4/payment/ and /pg/StartPay/ on one https
    host, sandbox.zarinpal.com when the flag is set and payment.zarinpal.com
    when it is not; and [New] is [NewWithMode] without the flag. *)
Theorem NewWithMode_base_urls (merchantID : string) (sandbox : bool) :
  let host := if sandbox then "sandbox.zarinpal.com" else "payment.zarinpal.com" in
  NewWithMode merchantID sandbox
  = Zarinpal.mk merchantID
      ("https://" ++ host ++ "/pg/v4/payment/")
      ("https://" ++ host ++ "/pg/StartPay/")
      (http_Client.mk 30000000000)
  /\ Zarinpal.APIBaseURL (NewWithMode merchantID true)
     = "https://sandbox.zarinpal.com/pg/v4/payment/"
  /\ Zarinpal.PaymentBaseURL (NewWithMode merchantID true)
     = "https://sandbox.zarinpal.com/pg/StartPay/"
  /\ Zarinpal.APIBaseURL (NewWithMode merchantID false)
     = "https://payment.zarinpal.com/pg/v4/payment/"
  /\ Zarinpal.PaymentBaseURL (NewWithMode merchantID false)
     = "https://payment.zarinpal.com/pg/StartPay/"
  /\ New merchantID = NewWithMode merchantID false.
Proof. destruct sandbox; repeat split. Qed.

(** C8: no method assigns the receiver: after [NewPayment], [VerifyPayment],
    [CheckPaymentStatus] and [GetPaymentURL] the client is the one the
    method was called on, its merchant identifier and its two base URLs
    included. *)
Theorem methods_preserve_client (P : Platform) (ctx : Context P) (s : State P)
  (amount : Z) (description callbackURL authority : string)
  (metadata : option Metadata.t) (wages : list Wage.t) :
  let unchanged (s' : State P) :=
    this s' = this s
    /\ Zarinpal.MerchantID (this s') = Zarinpal.MerchantID (this s)
    /\ Zarinpal.APIBaseURL (this s') = Zarinpal.APIBaseURL (this s)
    /\ Zarinpal.PaymentBaseURL (this s') = Zarinpal.PaymentBaseURL (this s) in
  unchanged (snd (NewPayment P ctx amount description metadata callbackURL
                    wages s))
  /\ unchanged (snd (VerifyPayment P ctx amount authority s))
  /\ unchanged (snd (CheckPaymentStatus P ctx amount authority s))
  /\ unchanged (snd (GetPaymentURL P authority s)).
Proof.
  assert (H : forall s' : State P, this s' = this s ->
    this s' = this s
    /\ Zarinpal.MerchantID (this s') = Zarinpal.MerchantID (this s)
    /\ Zarinpal.APIBaseURL (this s') = Zarinpal.APIBaseURL (this s)
    /\ Zarinpal.PaymentBaseURL (this s') = Zarinpal.PaymentBaseURL (this s)).
  { intros s' E. rewrite E. auto. }
  cbv zeta. split; [| split; [| split]]; apply H.
  - apply NewPayment_preserves.
  - apply VerifyPayment_preserves.
  - apply CheckPaymentStatus_preserves.
  - apply GetPaymentURL_preserves.
Qed.

(** C10: when [VerifyPayment] returns an error, [CheckPaymentStatus] returns
    that error with a status whose flags are false, whose reference
    identifier is 0 and whose message is the text of the error; when
    [VerifyPayment] returns no error, neither does [CheckPaymentStatus]. *)
Theorem CheckPaymentStatus_error (P : Platform) (ctx : Context P)
  (amount : Z) (authority : string) (s s' : State P)
  (v : PaymentVerificationResponse.t) (err : option error) :
  VerifyPayment P ctx amount authority s = ((v, err), s') ->
  match err with
  | Some e =>
      CheckPaymentStatus P ctx amount authority s
      = ((PaymentStatus.mk false false 0 (Error P e), Some e), s')
  | None => snd (fst (CheckPaymentStatus P ctx amount authority s)) = None
  end.
Proof.
  intros Hv. rewrite CheckPaymentStatus_unfold, Hv.
  destruct err; reflexivity.
Qed.

Lemma CheckPaymentStatus_error_witness :
  let P := unreachable "context deadline exceeded" in
  CheckPaymentStatus P tt 10000 "A36"
    (@mkState P (NewWithMode "merchant" true) 0%nat)
  = ((PaymentStatus.mk false false 0 "context deadline exceeded",
      Some (foreign "context deadline exceeded")),
     @mkState P (NewWithMode "merchant" true) 1%nat).
Proof.
  intros P.
  refine (CheckPaymentStatus_error P tt 10000 "A36" _ _
            PaymentVerificationResponse.zero
            (Some (foreign "context deadline exceeded")) _).
  reflexivity.
Defined.

(** ** The text of a value reads back

    A value that the scanner has read is read again from its own text, at
    any depth no greater and whatever follows, as long as what follows
    begins the same way. *)

Lemma append_nil_r (s : string) : s ++ "" = s.
Proof. induction s; simpl; congruence. Qed.

Lemma append_cancel_r (a b r : string) : a ++ r = b ++ r -> a = b.
Proof.
  revert b. induction a as [| c a IH]; intros [| c' b] H; simpl in H.
  - reflexivity.
  - apply (f_equal String.length) in H. simpl in H.
    rewrite length_append in H. lia.
  - apply (f_equal String.length) in H. simpl in H.
    rewrite length_append in H. lia.
  - injection H as -> H. f_equal. now apply IH.
Qed.

Lemma agrees_nil (b : string) : agrees "" b.
Proof. now left. Qed.

Lemma agrees_cons (c : ascii) (a b : string) : agrees (String c a) (String c b).
Proof. right. now exists c, a, b. Qed.

Lemma agrees_append (p a b : string) : agrees a b -> agrees (p ++ a) (p ++ b).
Proof.
  destruct p as [| c p]; simpl; [auto |]. intros _. apply agrees_cons.
Qed.

Lemma agrees_append_cons (p : string) (c : ascii) (a b : string) :
  agrees (p ++ String c a) (p ++ String c b).
Proof. apply agrees_append, agrees_cons. Qed.

Lemma skip_space_cons (c : ascii) (s : string) :
  json.skip_space (String c s)
  = if json.isSpace c then json.skip_space s else String c s.
Proof. reflexivity. Qed.

(** The white space that [skip_space] passes over is passed over whatever
    follows it. *)
Lemma skip_space_spaces (s : string) :
  exists w, s = w ++ json.skip_space s
            /\ forall y, json.skip_space (w ++ y) = json.skip_space y.
Proof.
  induction s as [| c s [w [Hs Hw]]].
  - exists "". split; reflexivity.
  - rewrite skip_space_cons. destruct (json.isSpace c) eqn:Hc.
    + exists (String c w). split; [simpl; congruence |].
      intros y. simpl. rewrite skip_space_cons, Hc. apply Hw.
    + exists "". split; reflexivity.
Qed.

(** What [skip_space] stops at is no white space. *)
Lemma skip_space_stops (s : string) (c : ascii) (r : string) :
  json.skip_space s = String c r -> json.isSpace c = false.
Proof.
  induction s as [| a s IH]; [discriminate |].
  rewrite skip_space_cons. destruct (json.isSpace a) eqn:Ha; [exact IH |].
  intros H. injection H as <- _. exact Ha.
Qed.

Lemma digits_retarget (s d rest rest' : string) :
  json.digits s = (d, rest) -> agrees rest' rest ->
  json.digits (d ++ rest') = (d, rest').
Proof.
  revert d. induction s as [| c s IH]; simpl; intros d H Ha.
  - injection H as <- <-. destruct Ha as [-> | [c [a [b [_ Hb]]]]];
      [reflexivity | discriminate].
  - destruct (json.isDigit c) eqn:Hc.
    + destruct (json.digits s) as [d' r'] eqn:E. injection H as <- <-.
      simpl. rewrite Hc. now rewrite (IH d' eq_refl Ha).
    + injection H as <- <-. simpl.
      destruct Ha as [-> | [c' [a [b [-> Hb]]]]]; [reflexivity |].
      injection Hb as <- _. simpl. now rewrite Hc.
Qed.

Lemma scan_int_retarget (s i rest rest' : string) :
  json.scan_int s = Some (i, rest) -> agrees rest' rest ->
  json.scan_int (i ++ rest') = Some (i, rest').
Proof.
  destruct s as [| c s]; simpl; [discriminate |].
  destruct (Ascii.eqb_spec c "0") as [Hc | Hc].
  - intros H _. injection H as <- <-. reflexivity.
  - destruct (json.isDigit c) eqn:Hd; [| discriminate].
    destruct (json.digits s) as [d r] eqn:E. intros H Ha.
    injection H as <- <-. simpl.
    destruct (Ascii.eqb_spec c "0"); [contradiction |].
    now rewrite Hd, (digits_retarget _ _ _ _ E Ha).
Qed.

Lemma scan_frac_retarget (s f rest rest' : string) :
  json.scan_frac s = Some (f, rest) -> agrees rest' rest ->
  json.scan_frac (f ++ rest') = Some (f, rest').
Proof.
  destruct s as [| c s]; simpl.
  - intros H Ha. injection H as <- <-.
    destruct Ha as [-> | [c [a [b [_ Hb]]]]]; [reflexivity | discriminate].
  - destruct (Ascii.eqb c ".") eqn:Hc.
    + destruct (json.digits s) as [[| a d] r] eqn:E; [discriminate |].
      intros H Ha. injection H as <- <-.
      unfold json.scan_frac. cbn [append]. rewrite Hc.
      change (String a (d ++ rest')) with (String a d ++ rest').
      now rewrite (digits_retarget _ _ _ _ E Ha).
    + intros H Ha. injection H as <- <-. simpl.
      destruct Ha as [-> | [c' [a [b [-> Hb]]]]]; [reflexivity |].
      injection Hb as <- _. simpl. now rewrite Hc.
Qed.

Lemma scan_exp_retarget (s e rest rest' : string) :
  json.scan_exp s = Some (e, rest) -> agrees rest' rest ->
  json.scan_exp (e ++ rest') = Some (e, rest').
Proof.
  destruct s as [| c s]; simpl.
  - intros H Ha. injection H as <- <-.
    destruct Ha as [-> | [c [a [b [_ Hb]]]]]; [reflexivity | discriminate].
  - destruct (Ascii.eqb c "e" || Ascii.eqb c "E") eqn:Hc.
    + destruct s as [| g s'].
      * simpl. discriminate.
      * destruct (Ascii.eqb g "+" || Ascii.eqb g "-") eqn:Hg.
        -- destruct (json.digits s') as [[| a d] r] eqn:E; [discriminate |].
           intros H Ha. injection H as <- <-.
           unfold json.scan_exp. cbn [append]. rewrite Hc, Hg.
           change (String a (d ++ rest')) with (String a d ++ rest').
           now rewrite (digits_retarget _ _ _ _ E Ha).
        -- destruct (json.digits (String g s')) as [[| a d] r] eqn:E;
             [discriminate |].
           intros H Ha. injection H as <- <-.
           assert (Hga : g = a).
           { simpl in E. destruct (json.isDigit g); [| discriminate].
             destruct (json.digits s'). now injection E as -> _ _. }
           subst g.
           unfold json.scan_exp. cbn [append]. rewrite Hc, Hg.
           change (String a (d ++ rest')) with (String a d ++ rest').
           now rewrite (digits_retarget _ _ _ _ E Ha).
    + intros H Ha. injection H as <- <-. simpl.
      destruct Ha as [-> | [c' [a [b [-> Hb]]]]]; [reflexivity |].
      injection Hb as <- _. simpl. now rewrite Hc.
Qed.

Lemma scan_number_retarget (s lit rest rest' : string) :
  json.scan_number s = Some (lit, rest) -> agrees rest' rest ->
  json.scan_number (lit ++ rest') = Some (lit, rest').
Proof.
  unfold json.scan_number at 1. intros H Ha.
  assert (Hgo : forall s0 i f e s1 s2,
             json.scan_int s0 = Some (i, s1) ->
             json.scan_frac s1 = Some (f, s2) ->
             json.scan_exp s2 = Some (e, rest) ->
             json.scan_int (i ++ f ++ e ++ rest') = Some (i, f ++ e ++ rest')
             /\ json.scan_frac (f ++ e ++ rest') = Some (f, e ++ rest')
             /\ json.scan_exp (e ++ rest') = Some (e, rest')).
  { intros s0 i f e s1 s2 Hi Hf He.
    pose proof (scan_exp_retarget _ _ _ _ He Ha) as He'.
    assert (Hs2 : s2 = e ++ rest).
    { destruct s2 as [| c x]; simpl in He.
      - now injection He as <- <-.
      - destruct (Ascii.eqb c "e" || Ascii.eqb c "E").
        + destruct x as [| g x']; [simpl in He; discriminate |].
          destruct (Ascii.eqb g "+" || Ascii.eqb g "-").
          * destruct (json.digits x') as [[| a d] r] eqn:E; [discriminate |].
            injection He as <- <-. simpl. do 2 f_equal.
            exact (digits_append _ _ _ E).
          * destruct (json.digits (String g x')) as [[| a d] r] eqn:E;
              [discriminate |].
            injection He as <- <-. simpl. f_equal.
            exact (digits_append _ _ _ E).
        + now injection He as <- <-. }
    assert (Ha2 : agrees (e ++ rest') s2) by (rewrite Hs2; now apply agrees_append).
    pose proof (scan_frac_retarget _ _ _ _ Hf Ha2) as Hf'.
    assert (Hs1 : s1 = f ++ s2).
    { destruct s1 as [| c x]; simpl in Hf.
      - now injection Hf as <- <-.
      - destruct (Ascii.eqb c ".").
        + destruct (json.digits x) as [[| a d] r] eqn:E; [discriminate |].
          injection Hf as <- <-. simpl. f_equal.
          exact (digits_append _ _ _ E).
        + now injection Hf as <- <-. }
    assert (Ha1 : agrees (f ++ e ++ rest') s1).
    { rewrite Hs1. now apply agrees_append. }
    pose proof (scan_int_retarget _ _ _ _ Hi Ha1) as Hi'.
    auto. }
  destruct s as [| c s'].
  - simpl in H. discriminate.
  - destruct (Ascii.eqb_spec c "-") as [Hc | Hc].
    + destruct (json.scan_int s') as [[i s1] |] eqn:Ei; [| discriminate].
      destruct (json.scan_frac s1) as [[f s2] |] eqn:Ef; [| discriminate].
      destruct (json.scan_exp s2) as [[e s3] |] eqn:Ee; [| discriminate].
      injection H as <- <-.
      destruct (Hgo _ _ _ _ _ _ Ei Ef Ee) as [Hi [Hf He]].
      unfold json.scan_number. cbn [append]. rewrite !append_assoc.
      rewrite Ascii.eqb_refl. cbv beta iota.
      rewrite Hi, Hf, He. reflexivity.
    + destruct (json.scan_int (String c s')) as [[i s1] |] eqn:Ei; [| discriminate].
      destruct (json.scan_frac s1) as [[f s2] |] eqn:Ef; [| discriminate].
      destruct (json.scan_exp s2) as [[e s3] |] eqn:Ee; [| discriminate].
      injection H as <- <-.
      destruct (Hgo _ _ _ _ _ _ Ei Ef Ee) as [Hi [Hf He]].
      assert (Hhead : exists c' i', i = String c' i' /\ c' <> "-"%char).
      { simpl in Ei. destruct (Ascii.eqb_spec c "0").
        - injection Ei as <- _. exists "0"%char, "". split; [reflexivity | discriminate].
        - destruct (json.isDigit c); [| discriminate].
          destruct (json.digits s') as [d0 r0]. injection Ei as <- _.
          exists c, d0. split; [reflexivity | exact Hc]. }
      destruct Hhead as [c' [i' [-> Hc']]].
      unfold json.scan_number. cbn [append].
      destruct (Ascii.eqb_spec c' "-"); [contradiction |].
      cbv beta iota. rewrite !append_assoc.
      change (String c' (i' ++ f ++ e ++ rest'))
        with (String c' i' ++ f ++ e ++ rest').
      rewrite Hi, Hf, He. reflexivity.
Qed.

Lemma scan_string_cons (c : ascii) (s1 : string) :
  json.scan_string (String c s1) =
  if Ascii.eqb c dquote then Some (EmptyString, s1)
  else if Ascii.eqb c backslash then
    match s1 with
    | String e s2 =>
        if json.isEscape e then
          match json.scan_string s2 with
          | Some (t, r) => Some (String c (String e t), r)
          | None => None
          end
        else if Ascii.eqb e "u" then
          match s2 with
          | String h1 (String h2 (String h3 (String h4 s3))) =>
              if json.isHex h1 && json.isHex h2 && json.isHex h3 && json.isHex h4
              then
                match json.scan_string s3 with
                | Some (t, r) =>
                    Some (String c (String e (String h1 (String h2
                            (String h3 (String h4 t))))), r)
                | None => None
                end
              else None
          | _ => None
          end
        else None
    | EmptyString => None
    end
  else if byte_val c <? 32 then None
  else
    match json.scan_string s1 with
    | Some (t, r) => Some (String c t, r)
    | None => None
    end.
Proof. reflexivity. Qed.

Lemma scan_string_retarget (s t rest : string) :
  json.scan_string s = Some (t, rest) ->
  forall rest', json.scan_string (t ++ String dquote rest') = Some (t, rest').
Proof.
  remember (String.length s) as n eqn:Hn.
  revert s t rest Hn. induction n as [n IH] using lt_wf_ind.
  intros s t rest Hn H rest'.
  destruct s as [| c s1]; [discriminate |].
  rewrite scan_string_cons in H.
  destruct (Ascii.eqb c dquote) eqn:Hq.
  { injection H as <- <-. cbn [append]. rewrite scan_string_cons.
    unfold dquote at 1. now rewrite Ascii.eqb_refl. }
  destruct (Ascii.eqb c backslash) eqn:Hb.
  - destruct s1 as [| e s2]; [discriminate |].
    destruct (json.isEscape e) eqn:He.
    + destruct (json.scan_string s2) as [[t' r'] |] eqn:E; [| discriminate].
      injection H as <- <-. cbn [append].
      rewrite scan_string_cons, Hq, Hb, He.
      rewrite (IH (String.length s2)) with (s := s2) (rest := r');
        [reflexivity | simpl in Hn; lia | reflexivity | assumption].
    + destruct (Ascii.eqb e "u") eqn:Hu; [| discriminate].
      destruct s2 as [| h1 [| h2 [| h3 [| h4 s3]]]]; try discriminate.
      destruct (json.isHex h1 && json.isHex h2 && json.isHex h3 && json.isHex h4)
        eqn:Hh; [| discriminate].
      destruct (json.scan_string s3) as [[t' r'] |] eqn:E; [| discriminate].
      injection H as <- <-. cbn [append].
      rewrite scan_string_cons, Hq, Hb, He, Hu, Hh.
      rewrite (IH (String.length s3)) with (s := s3) (rest := r');
        [reflexivity | simpl in Hn; lia | reflexivity | assumption].
  - destruct (byte_val c <? 32) eqn:Hl; [discriminate |].
    destruct (json.scan_string s1) as [[t' r'] |] eqn:E; [| discriminate].
    injection H as <- <-. cbn [append].
    rewrite scan_string_cons, Hq, Hb, Hl.
    rewrite (IH (String.length s1)) with (s := s1) (rest := r');
      [reflexivity | simpl in Hn; lia | reflexivity | assumption].
Qed.

Lemma prefix_self (p x : string) : json.prefix p (p ++ x) = Some x.
Proof.
  induction p as [| a p IH]; [reflexivity |].
  cbn [append]. unfold json.prefix; fold json.prefix.
  now rewrite Ascii.eqb_refl.
Qed.

Lemma closes_cons (c : ascii) (x : string) : json.closes c (String c x) = Some x.
Proof. unfold json.closes. now rewrite Ascii.eqb_refl. Qed.

Lemma consumed_cons (c : ascii) (p rest : string) :
  consumed (String c (p ++ rest)) rest = String c p.
Proof. apply (consumed_append (String c p) rest). Qed.

Lemma depth_ok (depth depth' : Z) :
  depth' <= depth ->
  (json.maxNestingDepth <? depth + 1) = false ->
  (json.maxNestingDepth <? depth' + 1) = false.
Proof. rewrite !Z.ltb_ge. lia. Qed.

Lemma skip_space_fixed (c : ascii) (x : string) :
  json.isSpace c = false -> json.skip_space (String c x) = String c x.
Proof. intros H. now rewrite skip_space_cons, H. Qed.

(** What [skip_space] returns, it returns again with another tail. *)
Lemma skip_space_head (s p r : string) :
  json.skip_space s = p ++ r -> p <> "" ->
  forall y, json.skip_space (p ++ y) = p ++ y.
Proof.
  intros H Hp y. destruct p as [| c p]; [contradiction |].
  cbn [append] in *. apply skip_space_fixed. eapply skip_space_stops, H.
Qed.

Lemma scan_elems_S (fuel : nat) (depth : Z) (s : string) :
  json.scan_elems (S fuel) depth s =
  match json.scan_value fuel depth s with
  | json.Scanned v r =>
      match json.skip_space r with
      | String c r1 =>
          if Ascii.eqb c "]" then json.Scanned [v] r1
          else if Ascii.eqb c "," then
            match json.scan_elems fuel depth (json.skip_space r1) with
            | json.Scanned vs r2 => json.Scanned (v :: vs) r2
            | json.Invalid => json.Invalid
            | json.OutOfFuel => json.OutOfFuel
            end
          else json.Invalid
      | EmptyString => json.Invalid
      end
  | json.Invalid => json.Invalid
  | json.OutOfFuel => json.OutOfFuel
  end.
Proof. reflexivity. Qed.

Lemma scan_members_S (fuel : nat) (depth : Z) (q : ascii) (s1 : string) :
  json.scan_members (S fuel) depth (String q s1) =
  if Ascii.eqb q dquote then
    match json.scan_string s1 with
    | Some (k, r) =>
        match json.skip_space r with
        | String colon r1 =>
            if Ascii.eqb colon ":" then
              match json.scan_value fuel depth (json.skip_space r1) with
              | json.Scanned v r2 =>
                  match json.skip_space r2 with
                  | String c r3 =>
                      if Ascii.eqb c "}" then json.Scanned [(k, v)] r3
                      else if Ascii.eqb c "," then
                        match json.scan_members fuel depth (json.skip_space r3) with
                        | json.Scanned ms r4 => json.Scanned ((k, v) :: ms) r4
                        | json.Invalid => json.Invalid
                        | json.OutOfFuel => json.OutOfFuel
                        end
                      else json.Invalid
                  | EmptyString => json.Invalid
                  end
              | json.Invalid => json.Invalid
              | json.OutOfFuel => json.OutOfFuel
              end
            else json.Invalid
        | EmptyString => json.Invalid
        end
    | None => json.Invalid
    end
  else json.Invalid.
Proof. reflexivity. Qed.

Lemma scan_value_S (fuel : nat) (depth : Z) (c : ascii) (s1 : string) :
  json.scan_value (S fuel) depth (String c s1) =
  let s := String c s1 in
  if Ascii.eqb c "[" then
    if json.maxNestingDepth <? depth + 1 then json.Invalid else
    match json.closes "]" (json.skip_space s1) with
    | Some r => json.Scanned (json.Array (consumed s r) []) r
    | None =>
        match json.scan_elems fuel (depth + 1) (json.skip_space s1) with
        | json.Scanned vs r => json.Scanned (json.Array (consumed s r) vs) r
        | json.Invalid => json.Invalid
        | json.OutOfFuel => json.OutOfFuel
        end
    end
  else if Ascii.eqb c "{" then
    if json.maxNestingDepth <? depth + 1 then json.Invalid else
    match json.closes "}" (json.skip_space s1) with
    | Some r => json.Scanned (json.Object (consumed s r) []) r
    | None =>
        match json.scan_members fuel (depth + 1) (json.skip_space s1) with
        | json.Scanned ms r => json.Scanned (json.Object (consumed s r) ms) r
        | json.Invalid => json.Invalid
        | json.OutOfFuel => json.OutOfFuel
        end
    end
  else if Ascii.eqb c dquote then
    match json.scan_string s1 with
    | Some (t, r) => json.Scanned (json.Str t) r
    | None => json.Invalid
    end
  else if Ascii.eqb c "-" || json.isDigit c then
    match json.scan_number s with
    | Some (lit, r) => json.Scanned (json.Number lit) r
    | None => json.Invalid
    end
  else if Ascii.eqb c "t" then
    match json.prefix "true" s with
    | Some r => json.Scanned (json.Bool true) r
    | None => json.Invalid
    end
  else if Ascii.eqb c "f" then
    match json.prefix "false" s with
    | Some r => json.Scanned (json.Bool false) r
    | None => json.Invalid
    end
  else if Ascii.eqb c "n" then
    match json.prefix "null" s with
    | Some r => json.Scanned json.Null r
    | None => json.Invalid
    end
  else json.Invalid.
Proof. reflexivity. Qed.

(** A bracketed value read again: the opening bracket, the white space and
    the text of what the brackets hold. *)
Lemma closes_none (c c2 : ascii) (x y : string) :
  json.closes c (String c2 x) = None -> json.closes c (String c2 y) = None.
Proof. unfold json.closes. now destruct (Ascii.eqb c2 c). Qed.

Lemma scan_retarget (fuel : nat) : forall depth s,
  (forall v rest, json.scan_value fuel depth s = json.Scanned v rest ->
     forall depth' rest', depth' <= depth -> agrees rest' rest ->
       json.scan_value fuel depth' (json.raw_of v ++ rest')
       = json.Scanned v rest')
  /\ (forall vs rest, json.scan_elems fuel depth s = json.Scanned vs rest ->
     exists p, p <> "" /\ s = p ++ rest /\
       forall depth' rest', depth' <= depth ->
         json.scan_elems fuel depth' (p ++ rest') = json.Scanned vs rest')
  /\ (forall ms rest, json.scan_members fuel depth s = json.Scanned ms rest ->
     exists p, p <> "" /\ s = p ++ rest /\
       forall depth' rest', depth' <= depth ->
         json.scan_members fuel depth' (p ++ rest') = json.Scanned ms rest').
Proof.
  induction fuel as [| fuel IH]; intros depth s.
  - repeat split; discriminate.
  - assert (IHv := fun d s => proj1 (IH d s)).
    assert (IHe := fun d s => proj1 (proj2 (IH d s))).
    assert (IHm := fun d s => proj2 (proj2 (IH d s))).
    clear IH. split; [| split].
    + intros v rest H depth' rest' Hd Ha.
      destruct s as [| c s1]; [discriminate |].
      rewrite scan_value_S in H. cbv zeta in H.
      destruct (Ascii.eqb c "[") eqn:Hc.
      { destruct (json.maxNestingDepth <? depth + 1) eqn:Hmax; [discriminate |].
        pose proof (depth_ok _ _ Hd Hmax) as Hmax'.
        destruct (skip_space_spaces s1) as [w [Hs1 Hw]].
        destruct (json.closes "]" (json.skip_space s1)) as [r0 |] eqn:Ecl.
        - injection H as <- <-. apply closes_eq in Ecl. rewrite Ecl in Hs1.
          assert (Hs : s1 = (w ++ "]") ++ r0)
            by (rewrite append_assoc; exact Hs1).
          rewrite Hs. cbn [json.raw_of]. rewrite consumed_cons.
          cbn [append]. rewrite scan_value_S. cbv zeta. rewrite Hc, Hmax'.
          rewrite append_assoc. cbn [append].
          rewrite Hw, skip_space_fixed by reflexivity. rewrite closes_cons.
          replace (w ++ String "]" rest') with ((w ++ "]") ++ rest')
            by (now rewrite append_assoc).
          now rewrite consumed_cons.
        - destruct (json.scan_elems fuel (depth + 1) (json.skip_space s1))
            as [vs r0 | |] eqn:Ee; try discriminate.
          injection H as <- <-.
          destruct (IHe _ _ _ _ Ee) as [p [Hp [Hs2 Hre]]].
          assert (Hs : s1 = (w ++ p) ++ r0)
            by (rewrite append_assoc, <- Hs2; exact Hs1).
          assert (Hcl : json.closes "]" (p ++ rest') = None).
          { rewrite Hs2 in Ecl. destruct p as [| c2 p']; [contradiction |].
            exact (closes_none _ _ _ _ Ecl). }
          rewrite Hs. cbn [json.raw_of]. rewrite consumed_cons.
          cbn [append]. rewrite scan_value_S. cbv zeta. rewrite Hc, Hmax'.
          rewrite append_assoc, Hw, (skip_space_head _ _ _ Hs2 Hp), Hcl.
          rewrite (Hre (depth' + 1) rest') by lia.
          replace (w ++ p ++ rest') with ((w ++ p) ++ rest')
            by apply append_assoc.
          now rewrite consumed_cons. }
      destruct (Ascii.eqb c "{") eqn:Hc2.
      { destruct (json.maxNestingDepth <? depth + 1) eqn:Hmax; [discriminate |].
        pose proof (depth_ok _ _ Hd Hmax) as Hmax'.
        destruct (skip_space_spaces s1) as [w [Hs1 Hw]].
        destruct (json.closes "}" (json.skip_space s1)) as [r0 |] eqn:Ecl.
        - injection H as <- <-. apply closes_eq in Ecl. rewrite Ecl in Hs1.
          assert (Hs : s1 = (w ++ "}") ++ r0)
            by (rewrite append_assoc; exact Hs1).
          rewrite Hs. cbn [json.raw_of]. rewrite consumed_cons.
          cbn [append]. rewrite scan_value_S. cbv zeta. rewrite Hc, Hc2, Hmax'.
          rewrite append_assoc. cbn [append].
          rewrite Hw, skip_space_fixed by reflexivity. rewrite closes_cons.
          replace (w ++ String "}" rest') with ((w ++ "}") ++ rest')
            by (now rewrite append_assoc).
          now rewrite consumed_cons.
        - destruct (json.scan_members fuel (depth + 1) (json.skip_space s1))
            as [ms r0 | |] eqn:Ee; try discriminate.
          injection H as <- <-.
          destruct (IHm _ _ _ _ Ee) as [p [Hp [Hs2 Hre]]].
          assert (Hs : s1 = (w ++ p) ++ r0)
            by (rewrite append_assoc, <- Hs2; exact Hs1).
          assert (Hcl : json.closes "}" (p ++ rest') = None).
          { rewrite Hs2 in Ecl. destruct p as [| c2 p']; [contradiction |].
            exact (closes_none _ _ _ _ Ecl). }
          rewrite Hs. cbn [json.raw_of]. rewrite consumed_cons.
          cbn [append]. rewrite scan_value_S. cbv zeta. rewrite Hc, Hc2, Hmax'.
          rewrite append_assoc, Hw, (skip_space_head _ _ _ Hs2 Hp), Hcl.
          rewrite (Hre (depth' + 1) rest') by lia.
          replace (w ++ p ++ rest') with ((w ++ p) ++ rest')
            by apply append_assoc.
          now rewrite consumed_cons. }
      destruct (Ascii.eqb c dquote) eqn:Hq.
      { destruct (json.scan_string s1) as [[t r0] |] eqn:Es; [| discriminate].
        injection H as <- <-. apply Ascii.eqb_eq in Hq. subst c.
        cbn [json.raw_of append]. rewrite scan_value_S. cbv zeta.
        rewrite Hc, Hc2, Ascii.eqb_refl, append_assoc. cbn [append].
        now rewrite (scan_string_retarget _ _ _ Es rest'). }
      destruct (Ascii.eqb c "-" || json.isDigit c) eqn:Hn.
      { destruct (json.scan_number (String c s1)) as [[lit r0] |] eqn:En;
          [| discriminate].
        injection H as <- <-.
        destruct (scan_number_append _ _ _ En) as [Hne Hs].
        destruct lit as [| c' lit']; [contradiction |].
        injection Hs as <- _.
        cbn [json.raw_of append]. rewrite scan_value_S. cbv zeta.
        rewrite Hc, Hc2, Hq, Hn.
        change (String c (lit' ++ rest')) with (String c lit' ++ rest').
        now rewrite (scan_number_retarget _ _ _ _ En Ha). }
      destruct (Ascii.eqb c "t") eqn:Ht.
      { destruct (json.prefix "true" (String c s1)) as [r0 |] eqn:Ep;
          [| discriminate].
        injection H as <- <-. apply Ascii.eqb_eq in Ht. subst c.
        cbn [json.raw_of].
        change ("true" ++ rest') with (String "t" ("rue" ++ rest')).
        rewrite scan_value_S. cbv zeta. rewrite Hc, Hc2, Hq, Hn, Ascii.eqb_refl.
        change (String "t" ("rue" ++ rest')) with ("true" ++ rest').
        now rewrite prefix_self. }
      destruct (Ascii.eqb c "f") eqn:Hf.
      { destruct (json.prefix "false" (String c s1)) as [r0 |] eqn:Ep;
          [| discriminate].
        injection H as <- <-. apply Ascii.eqb_eq in Hf. subst c.
        cbn [json.raw_of].
        change ("false" ++ rest') with (String "f" ("alse" ++ rest')).
        rewrite scan_value_S. cbv zeta.
        rewrite Hc, Hc2, Hq, Hn, Ht, Ascii.eqb_refl.
        change (String "f" ("alse" ++ rest')) with ("false" ++ rest').
        now rewrite prefix_self. }
      destruct (Ascii.eqb c "n") eqn:Hnu; [| discriminate].
      destruct (json.prefix "null" (String c s1)) as [r0 |] eqn:Ep;
        [| discriminate].
      injection H as <- <-. apply Ascii.eqb_eq in Hnu. subst c.
      cbn [json.raw_of].
      change ("null" ++ rest') with (String "n" ("ull" ++ rest')).
      rewrite scan_value_S. cbv zeta.
      rewrite Hc, Hc2, Hq, Hn, Ht, Hf, Ascii.eqb_refl.
      change (String "n" ("ull" ++ rest')) with ("null" ++ rest').
      now rewrite prefix_self.
    + intros vs rest H. rewrite scan_elems_S in H.
      destruct (json.scan_value fuel depth s) as [v r0 | |] eqn:Ev;
        try discriminate.
      destruct (proj1 (scan_sound fuel depth s) _ _ Ev) as [Hne Hs].
      destruct (skip_space_spaces r0) as [w [Hr0 Hw]].
      destruct (json.skip_space r0) as [| c r1] eqn:Esk; [discriminate |].
      pose proof (skip_space_stops _ _ _ Esk) as Hsp.
      destruct (Ascii.eqb c "]") eqn:Hc1.
      { injection H as <- <-.
        exists (json.raw_of v ++ w ++ String c "").
        split; [destruct (json.raw_of v); [contradiction | discriminate] |].
        split.
        - rewrite Hs at 1. rewrite Hr0 at 1. rewrite !append_assoc. reflexivity.
        - intros depth' rest' Hd. rewrite !append_assoc. cbn [append].
          rewrite scan_elems_S.
          rewrite (IHv _ _ _ _ Ev depth' (w ++ String c rest') Hd)
            by (rewrite Hr0; apply agrees_append_cons).
          now rewrite Hw, (skip_space_fixed _ _ Hsp), Hc1. }
      destruct (Ascii.eqb c ",") eqn:Hc2; [| discriminate].
      destruct (json.scan_elems fuel depth (json.skip_space r1))
        as [vs' r2 | |] eqn:Ee; try discriminate.
      injection H as <- <-.
      destruct (IHe _ _ _ _ Ee) as [p2 [Hp2 [Hs2 Hre]]].
      destruct (skip_space_spaces r1) as [w1 [Hr1 Hw1]].
      exists (json.raw_of v ++ w ++ String c (w1 ++ p2)).
      split; [destruct (json.raw_of v); [contradiction | discriminate] |].
      split.
      * rewrite Hs at 1. rewrite Hr0 at 1. rewrite Hr1 at 1. rewrite Hs2.
        rewrite !append_assoc. cbn [append]. now rewrite !append_assoc.
      * intros depth' rest' Hd. rewrite !append_assoc. cbn [append].
        rewrite !append_assoc. rewrite scan_elems_S.
        rewrite (IHv _ _ _ _ Ev depth' (w ++ String c (w1 ++ p2 ++ rest')) Hd)
          by (rewrite Hr0; apply agrees_append_cons).
        rewrite Hw, (skip_space_fixed _ _ Hsp), Hc1, Hc2.
        rewrite Hw1, (skip_space_head _ _ _ Hs2 Hp2).
        now rewrite (Hre depth' rest' Hd).
    + intros ms rest H.
      destruct s as [| q s1]; [discriminate |].
      rewrite scan_members_S in H.
      destruct (Ascii.eqb q dquote) eqn:Hq; [| discriminate].
      destruct (json.scan_string s1) as [[k r0] |] eqn:Es; [| discriminate].
      pose proof (scan_string_append _ _ _ Es) as Hs1.
      destruct (skip_space_spaces r0) as [w0 [Hr0 Hw0]].
      destruct (json.skip_space r0) as [| colon r1] eqn:Esk0; [discriminate |].
      pose proof (skip_space_stops _ _ _ Esk0) as Hsp0.
      destruct (Ascii.eqb colon ":") eqn:Hcolon; [| discriminate].
      destruct (skip_space_spaces r1) as [w1 [Hr1 Hw1]].
      destruct (json.scan_value fuel depth (json.skip_space r1))
        as [v r2 | |] eqn:Ev; try discriminate.
      destruct (proj1 (scan_sound fuel depth _) _ _ Ev) as [Hne Hsv].
      destruct (skip_space_spaces r2) as [w2 [Hr2 Hw2]].
      destruct (json.skip_space r2) as [| c r3] eqn:Esk2; [discriminate |].
      pose proof (skip_space_stops _ _ _ Esk2) as Hsp2.
      destruct (Ascii.eqb c "}") eqn:Hc1.
      { injection H as <- <-.
        exists (String q (k ++ String dquote
                  (w0 ++ String colon (w1 ++ json.raw_of v ++ w2 ++ String c "")))).
        split; [discriminate |]. split.
        - cbn [append]. f_equal. rewrite Hs1 at 1. rewrite Hr0 at 1.
          rewrite Hr1 at 1. rewrite Hsv. rewrite Hr2 at 1.
          repeat first [rewrite append_assoc | progress cbn [append]].
          reflexivity.
        - intros depth' rest' Hd. cbn [append]. rewrite scan_members_S, Hq.
          repeat first [rewrite append_assoc | progress cbn [append]].
          rewrite (scan_string_retarget _ _ _ Es).
          rewrite Hw0, (skip_space_fixed _ _ Hsp0), Hcolon.
          rewrite Hw1, (skip_space_head _ _ _ Hsv Hne).
          rewrite (IHv _ _ _ _ Ev depth' (w2 ++ String c rest') Hd)
            by (rewrite Hr2; apply agrees_append_cons).
          now rewrite Hw2, (skip_space_fixed _ _ Hsp2), Hc1. }
      destruct (Ascii.eqb c ",") eqn:Hc2; [| discriminate].
      destruct (json.scan_members fuel depth (json.skip_space r3))
        as [ms' r4 | |] eqn:Em; try discriminate.
      injection H as <- <-.
      destruct (IHm _ _ _ _ Em) as [p3 [Hp3 [Hs3 Hre]]].
      destruct (skip_space_spaces r3) as [w3 [Hr3 Hw3]].
      exists (String q (k ++ String dquote
                (w0 ++ String colon
                   (w1 ++ json.raw_of v ++ w2 ++ String c (w3 ++ p3))))).
      split; [discriminate |]. split.
      * cbn [append]. f_equal. rewrite Hs1 at 1. rewrite Hr0 at 1.
        rewrite Hr1 at 1. rewrite Hsv. rewrite Hr2 at 1. rewrite Hr3 at 1.
        rewrite Hs3.
        repeat first [rewrite append_assoc | progress cbn [append]].
        reflexivity.
      * intros depth' rest' Hd. cbn [append]. rewrite scan_members_S, Hq.
        repeat first [rewrite append_assoc | progress cbn [append]].
        rewrite (scan_string_retarget _ _ _ Es).
        rewrite Hw0, (skip_space_fixed _ _ Hsp0), Hcolon.
        rewrite Hw1, (skip_space_head _ _ _ Hsv Hne).
        rewrite (IHv _ _ _ _ Ev depth'
                   (w2 ++ String c (w3 ++ p3 ++ rest')) Hd)
          by (rewrite Hr2; apply agrees_append_cons).
        rewrite Hw2, (skip_space_fixed _ _ Hsp2), Hc1, Hc2.
        rewrite Hw3, (skip_space_head _ _ _ Hs3 Hp3).
        now rewrite (Hre depth' rest' Hd).
Qed.

(** More fuel changes nothing once the scanner has come to an end. *)
Lemma scan_fuel_mono (fuel : nat) : forall fuel' depth s, (fuel <= fuel')%nat ->
  (json.scan_value fuel depth s <> json.OutOfFuel ->
     json.scan_value fuel' depth s = json.scan_value fuel depth s)
  /\ (json.scan_elems fuel depth s <> json.OutOfFuel ->
     json.scan_elems fuel' depth s = json.scan_elems fuel depth s)
  /\ (json.scan_members fuel depth s <> json.OutOfFuel ->
     json.scan_members fuel' depth s = json.scan_members fuel depth s).
Proof.
  induction fuel as [| fuel IH]; intros fuel' depth s Hle.
  - repeat split; intros H; now contradiction H.
  - destruct fuel' as [| fuel']; [lia |].
    assert (Hle' : (fuel <= fuel')%nat) by lia.
    assert (IHv := fun d s => proj1 (IH fuel' d s Hle')).
    assert (IHe := fun d s => proj1 (proj2 (IH fuel' d s Hle'))).
    assert (IHm := fun d s => proj2 (proj2 (IH fuel' d s Hle'))).
    clear IH. split; [| split].
    + destruct s as [| c s1]; [reflexivity |].
      rewrite !scan_value_S. cbv zeta.
      destruct (Ascii.eqb c "[").
      { destruct (json.maxNestingDepth <? depth + 1); [reflexivity |].
        destruct (json.closes "]" (json.skip_space s1)); [reflexivity |].
        intros H. rewrite IHe; [reflexivity |].
        intros E. rewrite E in H. now contradiction H. }
      destruct (Ascii.eqb c "{").
      { destruct (json.maxNestingDepth <? depth + 1); [reflexivity |].
        destruct (json.closes "}" (json.skip_space s1)); [reflexivity |].
        intros H. rewrite IHm; [reflexivity |].
        intros E. rewrite E in H. now contradiction H. }
      reflexivity.
    + rewrite !scan_elems_S. intros H.
      assert (Hv : json.scan_value fuel depth s <> json.OutOfFuel).
      { intros E. rewrite E in H. now contradiction H. }
      rewrite (IHv _ _ Hv).
      destruct (json.scan_value fuel depth s) as [v r | |]; try reflexivity.
      destruct (json.skip_space r) as [| c r1]; [reflexivity |].
      destruct (Ascii.eqb c "]"); [reflexivity |].
      destruct (Ascii.eqb c ","); [| reflexivity].
      rewrite IHe; [reflexivity |].
      intros E. rewrite E in H. now contradiction H.
    + destruct s as [| q s1]; [reflexivity |].
      rewrite !scan_members_S. intros H.
      destruct (Ascii.eqb q dquote); [| reflexivity].
      destruct (json.scan_string s1) as [[k r] |]; [| reflexivity].
      destruct (json.skip_space r) as [| colon r1]; [reflexivity |].
      destruct (Ascii.eqb colon ":"); [| reflexivity].
      assert (Hv : json.scan_value fuel depth (json.skip_space r1)
                   <> json.OutOfFuel).
      { intros E. rewrite E in H. now contradiction H. }
      rewrite (IHv _ _ Hv).
      destruct (json.scan_value fuel depth (json.skip_space r1))
        as [v r2 | |]; try reflexivity.
      destruct (json.skip_space r2) as [| c r3]; [reflexivity |].
      destruct (Ascii.eqb c "}"); [reflexivity |].
      destruct (Ascii.eqb c ","); [| reflexivity].
      rewrite IHm; [reflexivity |].
      intros E. rewrite E in H. now contradiction H.
Qed.

(** The outcome of a scan with the fuel of [parse] is the outcome with any
    fuel that was enough. *)
Lemma scan_value_any_fuel (fuel : nat) (depth : Z) (s : string) (v : json.value)
  (r : string) :
  json.scan_value fuel depth s = json.Scanned v r ->
  json.scan_value (json.fuel_for s) depth s = json.Scanned v r.
Proof.
  intros H.
  assert (Hf : json.scan_value (json.fuel_for s) depth s <> json.OutOfFuel)
    by (apply scan_fuel; unfold json.fuel_for; lia).
  assert (Hv : json.scan_value fuel depth s <> json.OutOfFuel)
    by (rewrite H; discriminate).
  rewrite <- (proj1 (scan_fuel_mono _ (max fuel (json.fuel_for s)) depth s
                      (Nat.le_max_r _ _)) Hf).
  rewrite (proj1 (scan_fuel_mono _ (max fuel (json.fuel_for s)) depth s
                    (Nat.le_max_l _ _)) Hv).
  exact H.
Qed.

(** A value begins with no white space. *)
Lemma scan_value_no_space (fuel : nat) (depth : Z) (s : string) (v : json.value)
  (r : string) :
  json.scan_value fuel depth s = json.Scanned v r -> json.skip_space s = s.
Proof.
  destruct fuel as [| fuel]; [discriminate |].
  destruct s as [| c s1]; [reflexivity |].
  rewrite scan_value_S. cbv zeta. intros H.
  apply skip_space_fixed.
  destruct (json.isSpace c) eqn:Hs; [| reflexivity].
  exfalso. unfold json.isSpace in Hs.
  repeat (apply orb_true_iff in Hs; destruct Hs as [Hs | Hs]);
    apply Ascii.eqb_eq in Hs; subst c; discriminate H.
Qed.

(** The text of a value that the scanner has read is a JSON text, and
    [parse] reads the same value from it. *)
Lemma scan_value_reparse (fuel : nat) (depth : Z) (s : string) (v : json.value)
  (r : string) :
  0 <= depth ->
  json.scan_value fuel depth s = json.Scanned v r ->
  json.parse (json.raw_of v) = Some v.
Proof.
  intros Hd H.
  pose proof (proj1 (scan_retarget fuel depth s) _ _ H 0 "" Hd (agrees_nil _))
    as Hr.
  rewrite append_nil_r in Hr.
  unfold json.parse.
  rewrite (scan_value_no_space _ _ _ _ _ Hr).
  now rewrite (scan_value_any_fuel _ _ _ _ _ Hr).
Qed.

Lemma scan_members_reparse (fuel : nat) : forall depth s ms r,
  0 <= depth ->
  json.scan_members fuel depth s = json.Scanned ms r ->
  Forall (fun kv => reparses (snd kv)) ms.
Proof.
  induction fuel as [| fuel IH]; intros depth s ms r Hd; [discriminate |].
  destruct s as [| q s1]; [discriminate |].
  rewrite scan_members_S.
  destruct (Ascii.eqb q dquote); [| discriminate].
  destruct (json.scan_string s1) as [[k r0] |]; [| discriminate].
  destruct (json.skip_space r0) as [| colon r1]; [discriminate |].
  destruct (Ascii.eqb colon ":"); [| discriminate].
  destruct (json.scan_value fuel depth (json.skip_space r1))
    as [v r2 | |] eqn:Ev; try discriminate.
  pose proof (scan_value_reparse _ _ _ _ _ Hd Ev) as Hv.
  destruct (json.skip_space r2) as [| c r3]; [discriminate |].
  destruct (Ascii.eqb c "}").
  { intros H. injection H as <- _. constructor; [exact Hv | constructor]. }
  destruct (Ascii.eqb c ","); [| discriminate].
  destruct (json.scan_members fuel depth (json.skip_space r3))
    as [ms' r4 | |] eqn:Em; try discriminate.
  intros H. injection H as <- _. constructor; [exact Hv |].
  exact (IH _ _ _ _ Hd Em).
Qed.

Lemma parse_reparse (data : string) (v : json.value) :
  json.parse data = Some v -> reparses v.
Proof.
  unfold json.parse.
  destruct (json.scan_value (json.fuel_for (json.skip_space data)) 0
              (json.skip_space data)) as [v0 r | |] eqn:E; try discriminate.
  destruct (json.skip_space r); [| discriminate].
  intros H. injection H as <-.
  exact (scan_value_reparse _ _ _ _ _ (Z.le_refl 0) E).
Qed.

Lemma parse_object_reparse (data raw : string)
  (ms : list (string * json.value)) :
  json.parse data = Some (json.Object raw ms) ->
  Forall (fun kv => reparses (snd kv)) ms.
Proof.
  unfold json.parse.
  destruct (json.scan_value (json.fuel_for (json.skip_space data)) 0
              (json.skip_space data)) as [v0 r | |] eqn:E; try discriminate.
  destruct (json.skip_space r); [| discriminate].
  intros H. injection H as ->. revert E.
  destruct (json.fuel_for (json.skip_space data)) as [| fuel]; [discriminate |].
  destruct (json.skip_space data) as [| c s1]; [discriminate |].
  rewrite scan_value_S. cbv zeta.
  destruct (Ascii.eqb c "[").
  { destruct (json.maxNestingDepth <? 0 + 1); [discriminate |].
    destruct (json.closes "]" (json.skip_space s1)); [discriminate |].
    destruct (json.scan_elems fuel (0 + 1) (json.skip_space s1));
      discriminate. }
  destruct (Ascii.eqb c "{").
  { destruct (json.maxNestingDepth <? 0 + 1); [discriminate |].
    destruct (json.closes "}" (json.skip_space s1)).
    - intros H. injection H as _ <- _. constructor.
    - destruct (json.scan_members fuel (0 + 1) (json.skip_space s1))
        as [ms' r' | |] eqn:Em; try discriminate.
      intros H. injection H as _ <- _.
      apply (scan_members_reparse _ _ _ _ _ (Z.le_0_1) Em). }
  destruct (Ascii.eqb c dquote).
  { destruct (json.scan_string s1) as [[t r0] |]; discriminate. }
  destruct (Ascii.eqb c "-" || json.isDigit c).
  { destruct (json.scan_number (String c s1)) as [[t r0] |]; discriminate. }
  destruct (Ascii.eqb c "t").
  { destruct (json.prefix "true" (String c s1)); discriminate. }
  destruct (Ascii.eqb c "f").
  { destruct (json.prefix "false" (String c s1)); discriminate. }
  destruct (Ascii.eqb c "n"); [| discriminate].
  destruct (json.prefix "null" (String c s1)); discriminate.
Qed.

(** ** More on the decoding *)

Lemma int_field_typed {T} (name : string) (set : Z -> T -> T) :
  typed_field (json.int_field name set).
Proof.
  intros v t e. destruct v; simpl; try discriminate;
    try (intros H; injection H as <-; exact I).
  destruct (json.ParseInt lit); simpl; [discriminate |].
  intros H; injection H as <-; exact I.
Qed.

Lemma string_field_typed {T} (name : string) (set : string -> T -> T) :
  typed_field (json.string_field name set).
Proof.
  intros v t e. destruct v; simpl; try discriminate;
    intros H; injection H as <-; exact I.
Qed.

Lemma raw_field_typed {T} (name : string) (set : string -> T -> T) :
  typed_field (json.raw_field name set).
Proof. intros v t e. discriminate. Qed.

Lemma slice_field_typed {T} (name : string)
  (set : option (list json.value) -> T -> T) :
  typed_field (json.slice_field name set).
Proof.
  intros v t e. unfold json.slice_field. cbn [json.store].
  destruct v; cbn [snd]; try discriminate;
    try (unfold json.mismatch; intros H; injection H as <-; exact I).
  destruct (json.first_overflow (json.Array raw elems)); [| discriminate].
  intros H; injection H as <-; exact I.
Qed.

Lemma store_members_typed {T} (ty : json.structType T) :
  Forall typed_field (json.fields ty) ->
  forall ms t saved t' e,
    json.store_members ty ms t saved = (t', Some e) ->
    saved = Some e \/ is_type_error e.
Proof.
  intros Hty. induction ms as [| [k v] ms IH]; intros t saved t' e; simpl.
  - intros H. injection H as _ ->. now left.
  - destruct (json.find_field ty (json.unquote k)) as [f |] eqn:Ef;
      [| apply IH].
    pose proof (proj1 (Forall_forall _ _) Hty f (find_field_In _ _ _ Ef)) as Hf.
    specialize (Hf v t).
    destruct (json.store f v t) as [t1 e1]. intros H. apply IH in H.
    destruct H as [H | H]; [| now right].
    destruct saved as [e0 |]; simpl in H; [now left |].
    destruct e1 as [e1 |]; [| discriminate]. simpl in H. injection H as <-.
    right. specialize (Hf e1 eq_refl).
    destruct e1; [contradiction | exact I].
Qed.

(** Decoding a JSON value into a struct whose fields are typed raises type
    errors only. *)
Lemma decode_typed {T} (ty : json.structType T) (v : json.value) (t t' : T)
  (e : json.error) :
  Forall typed_field (json.fields ty) ->
  json.decode ty pkg v t = (t', Some e) -> is_type_error e.
Proof.
  intros Hty. destruct v; simpl; try discriminate;
    try (intros H; injection H as _ <-; exact I).
  intros H. apply (store_members_typed ty Hty) in H.
  destruct H as [H | H]; [discriminate | exact H].
Qed.

Lemma BaseResponse_typed : Forall typed_field (json.fields BaseResponse.ty).
Proof. repeat constructor; apply raw_field_typed. Qed.

Lemma ErrorResponse_typed : Forall typed_field (json.fields ErrorResponse.ty).
Proof.
  repeat constructor;
    first [apply int_field_typed | apply string_field_typed
          | apply slice_field_typed].
Qed.

Lemma PaymentVerificationResponse_typed :
  Forall typed_field (json.fields PaymentVerificationResponse.ty).
Proof.
  repeat constructor; first [apply int_field_typed | apply string_field_typed].
Qed.

Lemma PaymentCreationResponse_typed :
  Forall typed_field (json.fields PaymentCreationResponse.ty).
Proof.
  repeat constructor; first [apply int_field_typed | apply string_field_typed].
Qed.

(** The members of an object never make the decoding of the envelope fail,
    and each region of the envelope holds no bytes or the text of one
    value. *)
Lemma store_members_regions (ms : list (string * json.value)) :
  Forall (fun kv => reparses (snd kv)) ms ->
  forall t saved t' e,
    json.store_members BaseResponse.ty ms t saved = (t', e) ->
    e = saved
    /\ (raw_region (BaseResponse.Data t) -> raw_region (BaseResponse.Data t'))
    /\ (raw_region (BaseResponse.Errors t) ->
        raw_region (BaseResponse.Errors t')).
Proof.
  induction 1 as [| [k v] ms Hv Hms IH]; intros t saved t' e; simpl.
  - intros H. injection H as <- <-. auto.
  - simpl in Hv.
    assert (Hr : raw_region (json.raw_of v)) by (right; now exists v).
    destruct (json.find_field BaseResponse.ty (json.unquote k)) as [f |] eqn:Ef;
      [| apply IH].
    pose proof (find_field_In _ _ _ Ef) as Hin. simpl in Hin.
    destruct Hin as [<- | [<- | []]]; simpl; intros H; apply IH in H;
      simpl in H; destruct H as [He [Hd Hr']];
      (split; [destruct saved; exact He | split; auto]).
Qed.

Lemma decode_envelope_regions (body : string) (br : BaseResponse.t)
  (e : option json.error) :
  decode_envelope body = (br, e) ->
  raw_region (BaseResponse.Data br) /\ raw_region (BaseResponse.Errors br).
Proof.
  unfold decode_envelope, json.Unmarshal.
  assert (Hz : raw_region "") by now left.
  destruct (json.parse body) as [v |] eqn:Ep.
  - destruct v; simpl; try (intros H; injection H as <- _; now split).
    intros H.
    apply (store_members_regions _ (parse_object_reparse _ _ _ Ep)) in H.
    destruct H as [_ [Hd He]]. split; [apply Hd | apply He]; exact Hz.
  - intros H. injection H as <- _. now split.
Qed.

(** The envelope fails to decode in two ways only: the body is no JSON
    text, or it is one that is neither an object nor [null]. *)
Lemma decode_envelope_error (body : string) (br : BaseResponse.t)
  (e : json.error) :
  decode_envelope body = (br, Some e) ->
  (json.parse body = None /\ e = json.SyntaxError body)
  \/ exists v, json.parse body = Some v /\ not_a_struct v
               /\ e = json.UnmarshalTypeError (json.describe v)
                        "zarinpalgo.BaseResponse" "" "".
Proof.
  unfold decode_envelope, json.Unmarshal.
  destruct (json.parse body) as [v |] eqn:Ep.
  - intros H. right. exists v. split; [reflexivity |].
    destruct v; simpl in H; try discriminate;
      try (injection H as _ <-; split; [exact I | reflexivity]).
    apply (store_members_regions _ (parse_object_reparse _ _ _ Ep)) in H.
    destruct H as [H _]. discriminate.
  - intros H. injection H as _ <-. now left.
Qed.

(** ** checkResponse, further *)

Lemma raw_region_parse (raw : string) :
  raw_region raw -> raw <> "" -> exists v, json.parse raw = Some v.
Proof. intros [-> | [v [H _]]] Hne; [contradiction | now exists v]. Qed.

Lemma isEmptyErrors_false (errors : string) :
  isEmptyErrors errors = false ->
  errors <> "[]" /\ errors <> "{}" /\ errors <> "".
Proof.
  unfold isEmptyErrors. intros H.
  repeat (apply orb_false_iff in H; destruct H as [H ?]).
  repeat split; intros ->; discriminate.
Qed.

Lemma isEmptyErrors_true (errors : string) :
  isEmptyErrors errors = true ->
  errors = "[]" \/ errors = "{}" \/ errors = "".
Proof.
  unfold isEmptyErrors. intros H.
  repeat (apply orb_true_iff in H; destruct H as [H | H]);
    apply String.eqb_eq in H; auto.
Qed.

(** What [checkResponse] returned without an error is the data region of an
    envelope whose errors region was classified empty. *)
Lemma checkResponse_ok_inv (body raw : string) :
  checkResponse body = (raw, None) ->
  exists br, decode_envelope body = (br, None)
             /\ isEmptyErrors (BaseResponse.Errors br) = true
             /\ raw = BaseResponse.Data br.
Proof.
  rewrite checkResponse_unfold.
  destruct (decode_envelope body) as [br [e |]] eqn:Hd; [discriminate |].
  destruct (isEmptyErrors (BaseResponse.Errors br)) eqn:Hc.
  - intros H. injection H as <-. now exists br.
  - destruct (decode_errors (BaseResponse.Errors br)) as [er [e |]];
      discriminate.
Qed.

(** An errors region that is an object, other than the two bytes of the
    empty object, is decoded as an [ErrorResponse]. *)
Lemma checkResponse_object_errors (body : string) (br : BaseResponse.t)
  (raw : string) (ms : list (string * json.value)) :
  decode_envelope body = (br, None) ->
  json.parse (BaseResponse.Errors br) = Some (json.Object raw ms) ->
  BaseResponse.Errors br <> "{}" ->
  checkResponse body =
  match snd (decode_errors (BaseResponse.Errors br)) with
  | Some e => ("", Some (json_error e))
  | None =>
      ("", Some (errorString (gateway_text (code_of ms) (message_of ms))))
  end.
Proof.
  intros Hd Hp Hne. rewrite checkResponse_unfold, Hd.
  assert (Hc : isEmptyErrors (BaseResponse.Errors br) = false).
  { unfold isEmptyErrors.
    destruct (String.eqb_spec (BaseResponse.Errors br) "[]") as [E | _];
      [rewrite E in Hp; discriminate |].
    destruct (String.eqb_spec (BaseResponse.Errors br) "{}") as [E | _];
      [contradiction |].
    destruct (String.eqb_spec (BaseResponse.Errors br) "") as [E | _];
      [rewrite E in Hp; discriminate |].
    reflexivity. }
  rewrite Hc.
  destruct (decode_errors (BaseResponse.Errors br)) as [er [e |]] eqn:He;
    simpl; [reflexivity |].
  destruct (decode_errors_object _ _ _ _ _ Hp He) as [-> ->]. reflexivity.
Qed.

(** X1: [checkResponse] returns data and a nil error exactly when the
    envelope decodes and its errors region is the empty list, the empty
    object, or absent; the data is then the data region. *)
Theorem checkResponse_returns_data_iff (body raw : string) :
  checkResponse body = (raw, None)
  <->
  exists br,
    decode_envelope body = (br, None)
    /\ (BaseResponse.Errors br = "[]" \/ BaseResponse.Errors br = "{}"
        \/ errors_absent body)
    /\ raw = BaseResponse.Data br.
Proof.
  rewrite checkResponse_unfold. split.
  - destruct (decode_envelope body) as [br [e |]] eqn:Hd; [discriminate |].
    destruct (isEmptyErrors (BaseResponse.Errors br)) eqn:Hc.
    + intros H. injection H as <-. exists br. split; [reflexivity |].
      split; [| reflexivity].
      destruct (isEmptyErrors_true _ Hc) as [H | [H | H]]; auto.
      right; right. now apply (envelope_errors_absent _ _ Hd).
    + destruct (decode_errors (BaseResponse.Errors br)) as [er [e |]];
        discriminate.
  - intros [br [Hd [He ->]]]. rewrite Hd.
    assert (Hc : isEmptyErrors (BaseResponse.Errors br) = true);
      [| now rewrite Hc].
    destruct He as [-> | [-> | Ha]]; try reflexivity.
    apply (envelope_errors_absent _ _ Hd) in Ha. now rewrite Ha.
Qed.

(** X2: [checkResponse] never returns data together with an error. *)
Theorem checkResponse_data_or_error (body : string) :
  fst (checkResponse body) = "" \/ snd (checkResponse body) = None.
Proof.
  rewrite checkResponse_unfold.
  destruct (decode_envelope body) as [br [e |]]; [now left |].
  destruct (isEmptyErrors (BaseResponse.Errors br)); [now right |].
  destruct (decode_errors (BaseResponse.Errors br)) as [er [e |]]; now left.
Qed.

(** X3: the data that [checkResponse] returns is no bytes at all or the
    text of one JSON value, which reads back as that value. *)
Theorem checkResponse_data_is_json (body raw : string) :
  checkResponse body = (raw, None) -> raw_region raw.
Proof.
  intros H. apply checkResponse_ok_inv in H.
  destruct H as [br [Hd [_ ->]]].
  apply (decode_envelope_regions _ _ _ Hd).
Qed.

Lemma checkResponse_data_is_json_witness :
  raw_region (j "{'authority':'A36','fee':[1, 2]}").
Proof.
  apply (checkResponse_data_is_json
           (j " {'errors' : [], 'data' : {'authority':'A36','fee':[1, 2]} } ")).
  reflexivity.
Defined.

(** X4: the only syntax error that [checkResponse] returns is the one of
    the body as a whole: a region cut out of a body that was read is never
    refused as malformed JSON. *)
Theorem checkResponse_syntax_error_iff (body data : string) :
  snd (checkResponse body) = Some (json_error (json.SyntaxError data))
  <-> json.parse body = None /\ data = body.
Proof.
  rewrite checkResponse_unfold. split.
  - destruct (decode_envelope body) as [br [e |]] eqn:Hd.
    + simpl. intros H. injection H as ->.
      destruct (decode_envelope_error _ _ _ Hd) as [[Hp He] | [v [_ [_ He]]]];
        [| discriminate].
      injection He as ->. now split.
    + destruct (isEmptyErrors (BaseResponse.Errors br)) eqn:Hc;
        [discriminate |].
      destruct (decode_errors (BaseResponse.Errors br)) as [er [e |]] eqn:He;
        [| discriminate].
      simpl. intros H. injection H as ->. exfalso.
      destruct (isEmptyErrors_false _ Hc) as [_ [_ Hne]].
      destruct (raw_region_parse _
                  (proj2 (decode_envelope_regions _ _ _ Hd)) Hne) as [v Hp].
      unfold decode_errors, json.Unmarshal in He. rewrite Hp in He.
      exact (decode_typed _ _ _ _ _ ErrorResponse_typed He).
  - intros [Hp ->]. unfold decode_envelope, json.Unmarshal. now rewrite Hp.
Qed.

(** X5: a body that is a JSON text but neither an object nor [null] is
    refused with the type error that names its kind; the body [null] gives
    no data and no error. *)
Theorem checkResponse_body_not_object (body : string) (v : json.value) :
  json.parse body = Some v ->
  (not_a_struct v ->
   checkResponse body
   = ("", Some (json_error (json.UnmarshalTypeError (json.describe v)
                              "zarinpalgo.BaseResponse" "" ""))))
  /\ (v = json.Null -> checkResponse body = ("", None)).
Proof.
  intros Hp. rewrite checkResponse_unfold.
  unfold decode_envelope, json.Unmarshal. rewrite Hp.
  split; [| intros ->; reflexivity].
  destruct v; simpl; intros H; try contradiction; reflexivity.
Qed.

Lemma checkResponse_body_not_object_witness :
  checkResponse (j "['gateway timeout']")
  = ("", Some (json_error (json.UnmarshalTypeError "array"
                             "zarinpalgo.BaseResponse" "" ""))).
Proof.
  refine (proj1 (checkResponse_body_not_object _
                   (json.Array (j "['gateway timeout']")
                      [json.Str "gateway timeout"]) _) _).
  - reflexivity.
  - exact I.
Defined.

(** X6: an errors region that is a JSON value other than an object, [null]
    or the two bytes of the empty list (a string, a number, a boolean, a
    list with elements or with white space) makes [checkResponse] fail with
    the type error that names its kind. *)
Theorem checkResponse_errors_not_object (body : string) (br : BaseResponse.t)
  (v : json.value) :
  decode_envelope body = (br, None) ->
  json.parse (BaseResponse.Errors br) = Some v ->
  not_a_struct v ->
  BaseResponse.Errors br <> "[]" ->
  checkResponse body
  = ("", Some (json_error (json.UnmarshalTypeError (json.describe v)
                             "zarinpalgo.ErrorResponse" "" ""))).
Proof.
  intros Hd Hp Hv Hne. rewrite checkResponse_unfold, Hd.
  assert (Hc : isEmptyErrors (BaseResponse.Errors br) = false).
  { unfold isEmptyErrors.
    destruct (String.eqb_spec (BaseResponse.Errors br) "[]") as [E | _];
      [contradiction |].
    destruct (String.eqb_spec (BaseResponse.Errors br) "{}") as [E | _];
      [rewrite E in Hp; injection Hp as <-; contradiction |].
    destruct (String.eqb_spec (BaseResponse.Errors br) "") as [E | _];
      [rewrite E in Hp; discriminate |].
    reflexivity. }
  rewrite Hc. unfold decode_errors, json.Unmarshal. rewrite Hp.
  destruct v; simpl; try contradiction; reflexivity.
Qed.

Lemma checkResponse_errors_not_object_witness :
  checkResponse (j "{'data':{'code':100},'errors':[ ]}")
  = ("", Some (json_error (json.UnmarshalTypeError "array"
                             "zarinpalgo.ErrorResponse" "" ""))).
Proof.
  refine (checkResponse_errors_not_object _
            (BaseResponse.mk (j "{'code':100}") "[ ]")
            (json.Array "[ ]" []) _ _ _ _).
  - reflexivity.
  - reflexivity.
  - exact I.
  - discriminate.
Defined.

(** X7: an errors region that is a JSON object, other than the two bytes of
    the empty object, never yields data: the result is a type error of one
    of its members, or the gateway error made of the code and the message
    that its members give, code 0 and an empty message when it has none. *)
Theorem checkResponse_errors_object (body : string) (br : BaseResponse.t)
  (raw : string) (ms : list (string * json.value)) :
  decode_envelope body = (br, None) ->
  json.parse (BaseResponse.Errors br) = Some (json.Object raw ms) ->
  BaseResponse.Errors br <> "{}" ->
  fst (checkResponse body) = ""
  /\ match snd (decode_errors (BaseResponse.Errors br)) with
     | Some e =>
         is_type_error e /\ snd (checkResponse body) = Some (json_error e)
     | None =>
         snd (checkResponse body)
         = Some (errorString (gateway_text (code_of ms) (message_of ms)))
     end.
Proof.
  intros Hd Hp Hne.
  rewrite (checkResponse_object_errors _ _ _ _ Hd Hp Hne).
  destruct (decode_errors (BaseResponse.Errors br)) as [er [e |]] eqn:He;
    simpl; [| now split].
  split; [reflexivity |]. split; [| reflexivity].
  unfold decode_errors, json.Unmarshal in He. rewrite Hp in He.
  exact (decode_typed _ _ _ _ _ ErrorResponse_typed He).
Qed.

Lemma checkResponse_errors_object_witness :
  fst (checkResponse (j "{'data':{'code':100},'errors':{ }}")) = ""
  /\ snd (checkResponse (j "{'data':{'code':100},'errors':{ }}"))
     = Some (errorString "error code: 0, error: ").
Proof.
  refine (checkResponse_errors_object
            (j "{'data':{'code':100},'errors':{ }}")
            (BaseResponse.mk (j "{'code':100}") "{ }") "{ }" [] _ _ _).
  - reflexivity.
  - reflexivity.
  - discriminate.
Defined.

(** ** NewPayment and VerifyPayment *)

Lemma VerifyPayment_exchange (P : Platform) (ctx : Context P) (amount : Z)
  (authority : string) (s s' : State P) (body : string) :
  verify_exchange P ctx amount authority s body s' ->
  VerifyPayment P ctx amount authority s
  = (decode_payload PaymentVerificationResponse.ty
       PaymentVerificationResponse.zero body, s').
Proof.
  intros [m [req [resp [w1 [w2 [Hm [Hr [Hdo [Hread ->]]]]]]]]].
  cbv [VerifyPayment bind load call ret]. cbv beta iota zeta.
  rewrite Hm, Hr, Hdo. cbv beta iota zeta. cbn [this world].
  rewrite Hread. cbv beta iota zeta. cbn [this world].
  unfold decode_payload.
  destruct (checkResponse body) as [raw [e |]]; reflexivity.
Qed.

Lemma NewPayment_exchange (P : Platform) (ctx : Context P) (amount : Z)
  (description : string) (metadata : option Metadata.t) (callbackURL : string)
  (wages : list Wage.t) (s s' : State P) (body : string) :
  create_exchange P ctx amount description metadata callbackURL wages s body s' ->
  NewPayment P ctx amount description metadata callbackURL wages s
  = (decode_payload PaymentCreationResponse.ty PaymentCreationResponse.zero
       body, s').
Proof.
  intros [m [req [resp [w1 [w2 [Hm [Hr [Hdo [Hread ->]]]]]]]]].
  cbv [NewPayment bind load call ret]. cbv beta iota zeta.
  rewrite Hm, Hr, Hdo. cbv beta iota zeta. cbn [this world].
  rewrite Hread. cbv beta iota zeta. cbn [this world].
  unfold decode_payload.
  destruct (checkResponse body) as [raw [e |]]; reflexivity.
Qed.

(** Every run of [VerifyPayment] ends before a body is read, with an error
    and the zero response, or goes through an exchange. *)
Lemma VerifyPayment_outcome (P : Platform) (ctx : Context P) (amount : Z)
  (authority : string) (s : State P) :
  (exists err s',
     VerifyPayment P ctx amount authority s
     = ((PaymentVerificationResponse.zero, Some err), s'))
  \/ exists body s',
       verify_exchange P ctx amount authority s body s'.
Proof.
  cbv [VerifyPayment bind load call ret verify_exchange].
  cbv beta iota zeta.
  destruct (Marshal_PaymentVerificationRequest P _) as [m [e |]] eqn:Hm.
  { left. now exists e, s. }
  destruct (NewRequestWithContext P ctx "POST" _ m) as [req | e] eqn:Hr.
  2: { left. now exists e, s. }
  destruct (Do P _ _ (world s)) as [[resp | e] w1] eqn:Hdo;
    cbv beta iota zeta; cbn [this world].
  2: { left. now exists e, (mkState (this s) w1). }
  destruct (ReadAll P resp w1) as [[body [e |]] w2] eqn:Hread;
    cbv beta iota zeta; cbn [this world].
  { left. now exists e, (mkState (this s) (Close P resp w2)). }
  right. exists body, (mkState (this s) (Close P resp w2)).
  exists m, req, resp, w1, w2. auto.
Qed.

Lemma NewPayment_outcome (P : Platform) (ctx : Context P) (amount : Z)
  (description : string) (metadata : option Metadata.t) (callbackURL : string)
  (wages : list Wage.t) (s : State P) :
  (exists err s',
     NewPayment P ctx amount description metadata callbackURL wages s
     = ((PaymentCreationResponse.zero, Some err), s'))
  \/ exists body s',
       create_exchange P ctx amount description metadata callbackURL wages
         s body s'.
Proof.
  cbv [NewPayment bind load call ret create_exchange].
  cbv beta iota zeta.
  destruct (Marshal_PaymentRequest P _) as [m [e |]] eqn:Hm.
  { left. now exists e, s. }
  destruct (NewRequestWithContext P ctx "POST" _ m) as [req | e] eqn:Hr.
  2: { left. now exists e, s. }
  destruct (Do P _ _ (world s)) as [[resp | e] w1] eqn:Hdo;
    cbv beta iota zeta; cbn [this world].
  2: { left. now exists e, (mkState (this s) w1). }
  destruct (ReadAll P resp w1) as [[body [e |]] w2] eqn:Hread;
    cbv beta iota zeta; cbn [this world].
  { left. now exists e, (mkState (this s) (Close P resp w2)). }
  right. exists body, (mkState (this s) (Close P resp w2)).
  exists m, req, resp, w1, w2. auto.
Qed.

Lemma decode_payload_error {T} (ty : json.structType T) (zero : T)
  (body raw : string) (e : error) :
  checkResponse body = (raw, Some e) ->
  decode_payload ty zero body = (zero, Some e).
Proof. unfold decode_payload. now intros ->. Qed.

Lemma decode_payload_data {T} (ty : json.structType T) (zero : T)
  (body raw : string) :
  checkResponse body = (raw, None) ->
  decode_payload ty zero body = lift_json (json.Unmarshal ty pkg raw zero).
Proof. unfold decode_payload. now intros ->. Qed.

Lemma checkResponse_classified_empty (body : string) (br : BaseResponse.t) :
  decode_envelope body = (br, None) ->
  BaseResponse.Errors br = "[]" \/ BaseResponse.Errors br = "{}"
  \/ errors_absent body ->
  checkResponse body = (BaseResponse.Data br, None).
Proof.
  intros Hd He. rewrite checkResponse_unfold, Hd.
  destruct He as [-> | [-> | Ha]]; [reflexivity | reflexivity |].
  apply (envelope_errors_absent _ _ Hd) in Ha. now rewrite Ha.
Qed.

(** The data region, once [checkResponse] has returned it, is decoded with
    a syntax error only when it holds no bytes, and otherwise with type
    errors only. *)
Lemma decode_payload_errors {T} (ty : json.structType T) (zero v : T)
  (body raw : string) (e : error) :
  Forall typed_field (json.fields ty) ->
  checkResponse body = (raw, None) ->
  decode_payload ty zero body = (v, Some e) ->
  (raw = "" /\ v = zero /\ e = json_error (json.SyntaxError ""))
  \/ (raw <> "" /\ exists d, e = json_error d /\ is_type_error d).
Proof.
  intros Hty Hc. rewrite (decode_payload_data _ _ _ _ Hc).
  pose proof (checkResponse_ok_inv _ _ Hc) as [br [Hd [_ Hraw]]].
  pose proof (proj1 (decode_envelope_regions _ _ _ Hd)) as Hr.
  rewrite <- Hraw in Hr. unfold lift_json, json.Unmarshal.
  destruct Hr as [-> | [jv [Hp _]]].
  - simpl. intros H. injection H as <- <-. now left.
  - rewrite Hp.
    destruct (json.decode ty pkg jv zero) as [v' [d |]] eqn:Hdec; simpl;
      [| discriminate].
    intros H. injection H as <- <-. right. split.
    + intros ->. discriminate.
    + exists d. split; [reflexivity |]. exact (decode_typed _ _ _ _ _ Hty Hdec).
Qed.

(** X8: when the request of [NewPayment] cannot be built, the error is
    returned with the zero response and the transport is not touched: the
    state is the one the method was called in. *)
Theorem NewPayment_not_built (P : Platform) (ctx : Context P) (amount : Z)
  (description : string) (metadata : option Metadata.t) (callbackURL : string)
  (wages : list Wage.t) (s : State P) (err : error) :
  create_not_built P ctx amount description metadata callbackURL wages s err ->
  NewPayment P ctx amount description metadata callbackURL wages s
  = ((PaymentCreationResponse.zero, Some err), s).
Proof.
  cbv [create_not_built NewPayment bind load call ret]. cbv beta iota zeta.
  intros [[m Hm] | [m [Hm Hr]]]; rewrite Hm; [reflexivity |].
  now rewrite Hr.
Qed.

Lemma NewPayment_not_built_witness :
  let P := refusing "net/http: nil Context" in
  NewPayment P tt 10000 "Test payment" None "http://localhost:8080/callback"
    [] (@mkState P (NewWithMode "merchant" true) 0%nat)
  = ((PaymentCreationResponse.zero, Some (foreign "net/http: nil Context")),
     @mkState P (NewWithMode "merchant" true) 0%nat).
Proof.
  intros P. apply NewPayment_not_built.
  right. exists "{}". split; reflexivity.
Defined.

(** X9: when the gateway answers [NewPayment] with an errors region that is
    an object with members and decodes as an [ErrorResponse], the method
    returns the zero response and the error whose text is made of the code
    and the message that the members give; the response body is closed. *)
Theorem NewPayment_gateway_error (P : Platform) (ctx : Context P) (amount : Z)
  (description : string) (metadata : option Metadata.t) (callbackURL : string)
  (wages : list Wage.t) (s s' : State P) (body : string)
  (br : BaseResponse.t) (raw : string) (m : string * json.value)
  (ms : list (string * json.value)) (er : ErrorResponse.t) :
  create_exchange P ctx amount description metadata callbackURL wages s body s' ->
  decode_envelope body = (br, None) ->
  json.parse (BaseResponse.Errors br) = Some (json.Object raw (m :: ms)) ->
  decode_errors (BaseResponse.Errors br) = (er, None) ->
  NewPayment P ctx amount description metadata callbackURL wages s
  = ((PaymentCreationResponse.zero,
      Some (errorString (gateway_text (code_of (m :: ms))
                           (message_of (m :: ms))))), s').
Proof.
  intros Hx Hd Hp He. rewrite (NewPayment_exchange _ _ _ _ _ _ _ _ _ _ Hx).
  f_equal. apply (decode_payload_error _ _ _ "").
  rewrite (checkResponse_object_errors _ _ _ _ Hd Hp), He; [reflexivity |].
  intros E. rewrite E in Hp. discriminate.
Qed.

Lemma NewPayment_gateway_error_witness :
  let P := canned (j "{'data':[],'errors':{'message':'The amount must be at least 1000.','code':-9,'validations':[]}}") in
  NewPayment P tt 999 "Test payment with invalid amount" None
    "http://localhost:8080/callback" []
    (@mkState P (NewWithMode "merchant" true) 0%nat)
  = ((PaymentCreationResponse.zero,
      Some (errorString
              "error code: -9, error: The amount must be at least 1000.")),
     @mkState P (NewWithMode "merchant" true) 1%nat).
Proof.
  intros P.
  refine (NewPayment_gateway_error P tt 999 _ None _ [] _ _
            (j "{'data':[],'errors':{'message':'The amount must be at least 1000.','code':-9,'validations':[]}}")
            (BaseResponse.mk "[]"
               (j "{'message':'The amount must be at least 1000.','code':-9,'validations':[]}"))
            (j "{'message':'The amount must be at least 1000.','code':-9,'validations':[]}")
            ("message", json.Str "The amount must be at least 1000.")
            [("code", json.Number "-9"); ("validations", json.Array "[]" [])]
            (ErrorResponse.mk "The amount must be at least 1000." (-9) (Some []))
            _ _ _ _).
  - exists "{}",
      ("https://sandbox.zarinpal.com/pg/v4/payment/request.json", []),
      (j "{'data':[],'errors':{'message':'The amount must be at least 1000.','code':-9,'validations':[]}}"),
      1%nat, 1%nat.
    repeat split.
  - reflexivity.
  - reflexivity.
  - reflexivity.
Defined.

(** X10: when the gateway answers [NewPayment] with an envelope whose
    errors region is the empty list, the empty object or absent, and whose
    data region decodes as a [PaymentCreationResponse], the method returns
    that response and a nil error; the response body is closed. *)
Theorem NewPayment_success (P : Platform) (ctx : Context P) (amount : Z)
  (description : string) (metadata : option Metadata.t) (callbackURL : string)
  (wages : list Wage.t) (s s' : State P) (body : string)
  (br : BaseResponse.t) (v : PaymentCreationResponse.t) :
  create_exchange P ctx amount description metadata callbackURL wages s body s' ->
  decode_envelope body = (br, None) ->
  BaseResponse.Errors br = "[]" \/ BaseResponse.Errors br = "{}"
  \/ errors_absent body ->
  json.Unmarshal PaymentCreationResponse.ty pkg (BaseResponse.Data br)
    PaymentCreationResponse.zero = (v, None) ->
  NewPayment P ctx amount description metadata callbackURL wages s
  = ((v, None), s').
Proof.
  intros Hx Hd He Hv. rewrite (NewPayment_exchange _ _ _ _ _ _ _ _ _ _ Hx).
  f_equal.
  rewrite (decode_payload_data _ _ _ _ (checkResponse_classified_empty _ _ Hd He)).
  now rewrite Hv.
Qed.

Lemma NewPayment_success_witness :
  let P := canned (j "{'data':{'code':100,'message':'Success','authority':'A00000000000000000000000000217885159','fee_type':'Merchant','fee':100},'errors':[]}") in
  NewPayment P tt 10000 "Test payment" None "http://localhost:8080/callback"
    [] (@mkState P (NewWithMode "merchant" true) 0%nat)
  = ((PaymentCreationResponse.mk 100 "Success"
        "A00000000000000000000000000217885159" "Merchant" 100, None),
     @mkState P (NewWithMode "merchant" true) 1%nat).
Proof.
  intros P.
  refine (NewPayment_success P tt 10000 _ None _ [] _ _
            (j "{'data':{'code':100,'message':'Success','authority':'A00000000000000000000000000217885159','fee_type':'Merchant','fee':100},'errors':[]}")
            (BaseResponse.mk
               (j "{'code':100,'message':'Success','authority':'A00000000000000000000000000217885159','fee_type':'Merchant','fee':100}")
               "[]") _ _ _ _ _).
  - exists "{}",
      ("https://sandbox.zarinpal.com/pg/v4/payment/request.json", []),
      (j "{'data':{'code':100,'message':'Success','authority':'A00000000000000000000000000217885159','fee_type':'Merchant','fee':100},'errors':[]}"),
      1%nat, 1%nat.
    repeat split.
  - reflexivity.
  - left; reflexivity.
  - reflexivity.
Defined.

(** X11: an error of the transport during [VerifyPayment], from [Do] or
    from the read of the body, is returned as it is with the zero response;
    after a failed read the body is closed, after a failed [Do] there is
    none to close. *)
Theorem VerifyPayment_transport_error (P : Platform) (ctx : Context P)
  (amount : Z) (authority : string) (s s' : State P) (err : error) :
  verify_transport_error P ctx amount authority s err s' ->
  VerifyPayment P ctx amount authority s
  = ((PaymentVerificationResponse.zero, Some err), s').
Proof.
  cbv [verify_transport_error VerifyPayment bind load call ret].
  cbv beta iota zeta.
  intros [m [req [Hm [Hr [[w1 [Hdo ->]] | [resp [w1 [rd [w2 [Hdo [Hrd ->]]]]]]]]]]];
    rewrite Hm, Hr, Hdo; cbv beta iota zeta; cbn [this world];
    [reflexivity |].
  rewrite Hrd. reflexivity.
Qed.

Lemma VerifyPayment_transport_error_witness :
  let P := unreachable "dial tcp: i/o timeout" in
  VerifyPayment P tt 10000 "A36" (@mkState P (NewWithMode "merchant" false) 0%nat)
  = ((PaymentVerificationResponse.zero, Some (foreign "dial tcp: i/o timeout")),
     @mkState P (NewWithMode "merchant" false) 1%nat).
Proof.
  intros P. apply VerifyPayment_transport_error.
  exists "{}", ("https://payment.zarinpal.com/pg/v4/payment/verify.json", []).
  split; [reflexivity |]. split; [reflexivity |].
  left. exists 1%nat. split; reflexivity.
Defined.

(** X12: once [Do] has returned a response to [VerifyPayment], the body of
    that response is closed after the read, whatever the read, the envelope
    and the decoding of the data come to. *)
Theorem VerifyPayment_closes_body (P : Platform) (ctx : Context P)
  (amount : Z) (authority : string) (s : State P) (m : string)
  (req : Request P) (resp : Response P) (w1 : World P) :
  Marshal_PaymentVerificationRequest P
    (PaymentVerificationRequest.mk (Zarinpal.MerchantID (this s)) amount
       authority) = (m, None) ->
  NewRequestWithContext P ctx "POST"
    (Zarinpal.APIBaseURL (this s) ++ "verify.json") m = inl req ->
  Do P (Zarinpal.client (this s))
    (Header_Add P req "Content-Type" "application/json") (world s)
  = (inl resp, w1) ->
  world (snd (VerifyPayment P ctx amount authority s))
  = Close P resp (snd (ReadAll P resp w1)).
Proof.
  intros Hm Hr Hdo. cbv [VerifyPayment bind load call ret].
  cbv beta iota zeta. rewrite Hm, Hr, Hdo. cbv beta iota zeta. cbn [this world].
  destruct (ReadAll P resp w1) as [rd w2]. reflexivity.
Qed.

Lemma VerifyPayment_closes_body_witness :
  let P := logging "<html>502 Bad Gateway</html>"
             (Some (foreign "unexpected EOF")) in
  world (snd (VerifyPayment P tt 10000 "A36"
                (@mkState P (NewWithMode "merchant" true) [])))
  = ["do https://sandbox.zarinpal.com/pg/v4/payment/verify.json"; "read";
     "close"].
Proof.
  intros P.
  refine (VerifyPayment_closes_body P tt 10000 "A36" _ "{}"
            ("https://sandbox.zarinpal.com/pg/v4/payment/verify.json", [])
            "<html>502 Bad Gateway</html>"
            ["do https://sandbox.zarinpal.com/pg/v4/payment/verify.json"]
            _ _ _); reflexivity.
Defined.

(** X13: [VerifyPayment] returns an error together with a response other
    than the zero value only when the error is a type error of the decoder:
    the data region was decoded in part. *)
Theorem VerifyPayment_partial_response (P : Platform) (ctx : Context P)
  (amount : Z) (authority : string) (s s' : State P)
  (v : PaymentVerificationResponse.t) (e : error) :
  VerifyPayment P ctx amount authority s = ((v, Some e), s') ->
  v <> PaymentVerificationResponse.zero ->
  exists d, e = json_error d /\ is_type_error d.
Proof.
  intros H Hv.
  destruct (VerifyPayment_outcome P ctx amount authority s)
    as [[err [s0 H0]] | [body [s0 Hx]]].
  - rewrite H0 in H. injection H as <- _ _. contradiction.
  - rewrite (VerifyPayment_exchange _ _ _ _ _ _ _ Hx) in H.
    injection H as H _.
    destruct (checkResponse body) as [raw [e0 |]] eqn:Hc.
    + rewrite (decode_payload_error _ _ _ _ _ Hc) in H.
      injection H as <- _. contradiction.
    + destruct (decode_payload_errors _ _ _ _ _ _
                  PaymentVerificationResponse_typed Hc H)
        as [[_ [Hz _]] | [_ Hd]]; [contradiction | exact Hd].
Qed.

Lemma VerifyPayment_partial_response_witness :
  exists d,
    json_error (json.UnmarshalTypeError "number" "string"
                  "PaymentVerificationResponse" "message") = json_error d
    /\ is_type_error d.
Proof.
  refine (let P := canned (j "{'data':{'code':100,'message':5,'ref_id':201},'errors':[]}") in
          VerifyPayment_partial_response P tt 10000 "A36"
            (@mkState P (NewWithMode "merchant" true) 0%nat)
            (@mkState P (NewWithMode "merchant" true) 1%nat)
            (PaymentVerificationResponse.mk 100 "" "" "" 201 "" 0)
            _ _ _).
  - reflexivity.
  - discriminate.
Defined.

(** X14: when the gateway answers [VerifyPayment] with an envelope that
    [checkResponse] accepts, the method fails with a syntax error exactly
    when the envelope carries no data region, and the syntax error is the
    one of the empty input. *)
Theorem VerifyPayment_syntax_error_iff (P : Platform) (ctx : Context P)
  (amount : Z) (authority : string) (s s' : State P) (body raw data : string) :
  verify_exchange P ctx amount authority s body s' ->
  checkResponse body = (raw, None) ->
  (snd (fst (VerifyPayment P ctx amount authority s))
   = Some (json_error (json.SyntaxError data))
   <-> raw = "" /\ data = "").
Proof.
  intros Hx Hc. rewrite (VerifyPayment_exchange _ _ _ _ _ _ _ Hx). cbn [fst].
  split.
  - destruct (decode_payload PaymentVerificationResponse.ty
                PaymentVerificationResponse.zero body) as [v [e |]] eqn:Hp;
      [| discriminate].
    cbn [snd]. intros He. injection He as ->.
    destruct (decode_payload_errors _ _ _ _ _ _
                PaymentVerificationResponse_typed Hc Hp)
      as [[Hr [_ He]] | [_ [d [He Hd]]]].
    + injection He as ->. now split.
    + injection He as <-. contradiction.
  - intros [-> ->]. rewrite (decode_payload_data _ _ _ _ Hc). reflexivity.
Qed.

Lemma VerifyPayment_syntax_error_iff_witness :
  let P := canned (j "{'errors':[]}") in
  snd (fst (VerifyPayment P tt 10000 "A36"
              (@mkState P (NewWithMode "merchant" true) 0%nat)))
  = Some (json_error (json.SyntaxError ""))
  <-> "" = "" /\ "" = "".
Proof.
  intros P.
  refine (VerifyPayment_syntax_error_iff P tt 10000 "A36" _
            (@mkState P (NewWithMode "merchant" true) 1%nat)
            (j "{'errors':[]}") "" "" _ _).
  - exists "{}", ("https://sandbox.zarinpal.com/pg/v4/payment/verify.json", []),
      (j "{'errors':[]}"), 1%nat, 1%nat.
    repeat split.
  - reflexivity.
Defined.

(** X15: when the data region that [checkResponse] returns to
    [VerifyPayment] is a JSON value other than an object, the method does
    not decode it: on [null] it returns the zero response and a nil error,
    on any other value the zero response and the type error that names the
    kind of the value. *)
Theorem VerifyPayment_data_not_object (P : Platform) (ctx : Context P)
  (amount : Z) (authority : string) (s s' : State P) (body raw : string)
  (v : json.value) :
  verify_exchange P ctx amount authority s body s' ->
  checkResponse body = (raw, None) ->
  json.parse raw = Some v ->
  (not_a_struct v ->
   VerifyPayment P ctx amount authority s
   = ((PaymentVerificationResponse.zero,
       Some (json_error (json.UnmarshalTypeError (json.describe v)
                           "zarinpalgo.PaymentVerificationResponse" "" ""))),
      s'))
  /\ (v = json.Null ->
      VerifyPayment P ctx amount authority s
      = ((PaymentVerificationResponse.zero, None), s')).
Proof.
  intros Hx Hc Hp. rewrite (VerifyPayment_exchange _ _ _ _ _ _ _ Hx).
  rewrite (decode_payload_data _ _ _ _ Hc).
  unfold lift_json, json.Unmarshal. rewrite Hp.
  split; [| intros ->; reflexivity].
  destruct v; simpl; intros H; try contradiction; reflexivity.
Qed.

Lemma VerifyPayment_data_not_object_witness :
  let P := canned (j "{'data':[],'errors':[]}") in
  VerifyPayment P tt 10000 "A36" (@mkState P (NewWithMode "merchant" true) 0%nat)
  = ((PaymentVerificationResponse.zero,
      Some (json_error (json.UnmarshalTypeError "array"
                          "zarinpalgo.PaymentVerificationResponse" "" ""))),
     @mkState P (NewWithMode "merchant" true) 1%nat).
Proof.
  intros P.
  refine (proj1 (VerifyPayment_data_not_object P tt 10000 "A36" _ _
                   (j "{'data':[],'errors':[]}") "[]" (json.Array "[]" [])
                   _ _ _) _).
  - exists "{}", ("https://sandbox.zarinpal.com/pg/v4/payment/verify.json", []),
      (j "{'data':[],'errors':[]}"), 1%nat, 1%nat.
    repeat split.
  - reflexivity.
  - reflexivity.
  - exact I.
Defined.

(** ** CheckPaymentStatus and GetPaymentURL *)

Lemma store_members_verification_code (ms : list (string * json.value)) :
  forall t saved t' e,
    json.store_members PaymentVerificationResponse.ty ms t saved = (t', e) ->
    PaymentVerificationResponse.Code t'
    = fold_left verification_code_step ms (PaymentVerificationResponse.Code t).
Proof.
  induction ms as [| [k v] ms IH]; intros t saved t' e; simpl.
  - intros H. now injection H as <- _.
  - unfold verification_code_step at 2, selects. simpl fst. simpl snd.
    destruct (json.find_field PaymentVerificationResponse.ty (json.unquote k))
      as [f |] eqn:Ef; [| apply IH].
    pose proof (find_field_In _ _ _ Ef) as Hin. simpl in Hin.
    destruct Hin as [<- | [<- | [<- | [<- | [<- | [<- | [<- | []]]]]]]]; simpl;
      destruct v as [| b | lit | inner | raw vs | raw ms']; simpl;
      try (intros H; apply IH in H; exact H);
      destruct (json.ParseInt lit); simpl; intros H; apply IH in H; exact H.
Qed.

Lemma verification_code_not_selected (ms : list (string * json.value)) :
  Forall (fun kv => selects PaymentVerificationResponse.ty "code" (fst kv)
                    = false) ms ->
  forall z, fold_left verification_code_step ms z = z.
Proof.
  induction 1 as [| [k x] ms Hk _ IH]; intros z; simpl; [reflexivity |].
  unfold verification_code_step at 2. simpl fst in *. rewrite Hk. apply IH.
Qed.

Lemma append_cancel_l (p a b : string) : p ++ a = p ++ b -> a = b.
Proof. induction p as [| c p IH]; simpl; intros H; [| injection H as H]; auto. Qed.

(** X16: whatever the transport does, the status that [CheckPaymentStatus]
    returns is successful exactly when [VerifyPayment] returned no error and
    a code of 100 or 101; it is repeated only if it is successful; with an
    error its reference identifier is 0; and the method leaves the state
    that its one call of [VerifyPayment] leaves. *)
Theorem CheckPaymentStatus_invariants (P : Platform) (ctx : Context P)
  (amount : Z) (authority : string) (s : State P) :
  let r := CheckPaymentStatus P ctx amount authority s in
  let status := fst (fst r) in
  (PaymentStatus.IsSuccessful status = true
   <-> exists v,
         fst (VerifyPayment P ctx amount authority s) = (v, None)
         /\ (PaymentVerificationResponse.Code v = 100
             \/ PaymentVerificationResponse.Code v = 101))
  /\ (PaymentStatus.IsRepeated status = true ->
      PaymentStatus.IsSuccessful status = true)
  /\ (snd (fst r) <> None ->
      PaymentStatus.IsSuccessful status = false
      /\ PaymentStatus.IsRepeated status = false
      /\ PaymentStatus.RefID status = 0)
  /\ snd r = snd (VerifyPayment P ctx amount authority s).
Proof.
  cbv zeta. rewrite CheckPaymentStatus_unfold.
  destruct (VerifyPayment P ctx amount authority s) as [[v [e |]] s'];
    cbn [fst snd].
  - split; [| split; [discriminate | split; [| reflexivity]]].
    + split; [discriminate | intros [v' [H _]]; discriminate].
    + intros _. now repeat split.
  - unfold classify; cbn [PaymentStatus.IsRepeated PaymentStatus.IsSuccessful].
    split; [| split; [| split; [intros H; now contradiction H | reflexivity]]].
    + destruct (Z.eqb_spec (PaymentVerificationResponse.Code v) 100) as [E | E].
      { split; [| reflexivity]. intros _. exists v. auto. }
      destruct (Z.eqb_spec (PaymentVerificationResponse.Code v) 101) as [E' | E'].
      { split; [| reflexivity]. intros _. exists v. auto. }
      split; [discriminate |].
      intros [v' [H [H' | H']]]; injection H as <-; contradiction.
    + destruct (PaymentVerificationResponse.Code v =? 100); [discriminate |].
      now destruct (PaymentVerificationResponse.Code v =? 101).
Qed.

(** X17: when the gateway answers the verification with an errors region
    that is an object with members and decodes as an [ErrorResponse],
    [CheckPaymentStatus] returns the gateway error and a failed status whose
    message is the text of that error. *)
Theorem CheckPaymentStatus_gateway_error (P : Platform) (ctx : Context P)
  (amount : Z) (authority : string) (s s' : State P) (body : string)
  (br : BaseResponse.t) (raw : string) (m : string * json.value)
  (ms : list (string * json.value)) (er : ErrorResponse.t) :
  verify_exchange P ctx amount authority s body s' ->
  decode_envelope body = (br, None) ->
  json.parse (BaseResponse.Errors br) = Some (json.Object raw (m :: ms)) ->
  decode_errors (BaseResponse.Errors br) = (er, None) ->
  let text := gateway_text (code_of (m :: ms)) (message_of (m :: ms)) in
  CheckPaymentStatus P ctx amount authority s
  = ((PaymentStatus.mk false false 0 text, Some (errorString text)), s').
Proof.
  intros Hx Hd Hp He. cbv zeta.
  rewrite CheckPaymentStatus_unfold, (VerifyPayment_exchange _ _ _ _ _ _ _ Hx).
  rewrite (decode_payload_error _ _ _ "" (errorString
             (gateway_text (code_of (m :: ms)) (message_of (m :: ms)))));
    [reflexivity |].
  rewrite (checkResponse_object_errors _ _ _ _ Hd Hp), He; [reflexivity |].
  intros E. rewrite E in Hp. discriminate.
Qed.

Lemma CheckPaymentStatus_gateway_error_witness :
  let P := canned (j "{'data':[],'errors':{'code':-51,'message':'Session is not valid, session is not active paid try.','validations':[]}}") in
  CheckPaymentStatus P tt 10000 "A36"
    (@mkState P (NewWithMode "merchant" true) 0%nat)
  = ((PaymentStatus.mk false false 0
        "error code: -51, error: Session is not valid, session is not active paid try.",
      Some (errorString
              "error code: -51, error: Session is not valid, session is not active paid try.")),
     @mkState P (NewWithMode "merchant" true) 1%nat).
Proof.
  intros P.
  refine (CheckPaymentStatus_gateway_error P tt 10000 "A36" _ _
            (j "{'data':[],'errors':{'code':-51,'message':'Session is not valid, session is not active paid try.','validations':[]}}")
            (BaseResponse.mk "[]"
               (j "{'code':-51,'message':'Session is not valid, session is not active paid try.','validations':[]}"))
            (j "{'code':-51,'message':'Session is not valid, session is not active paid try.','validations':[]}")
            ("code", json.Number "-51")
            [("message",
              json.Str "Session is not valid, session is not active paid try.");
             ("validations", json.Array "[]" [])]
            (ErrorResponse.mk
               "Session is not valid, session is not active paid try." (-51)
               (Some []))
            _ _ _ _).
  - exists "{}", ("https://sandbox.zarinpal.com/pg/v4/payment/verify.json", []),
      (j "{'data':[],'errors':{'code':-51,'message':'Session is not valid, session is not active paid try.','validations':[]}}"),
      1%nat, 1%nat.
    repeat split.
  - reflexivity.
  - reflexivity.
  - reflexivity.
Defined.

(** X18: when the gateway answers the verification with an envelope whose
    errors region is the empty list, the empty object or absent, and whose
    data region decodes as a [PaymentVerificationResponse], the status that
    [CheckPaymentStatus] returns is the classification of that response,
    with a nil error. *)
Theorem CheckPaymentStatus_end_to_end (P : Platform) (ctx : Context P)
  (amount : Z) (authority : string) (s s' : State P) (body : string)
  (br : BaseResponse.t) (v : PaymentVerificationResponse.t) :
  verify_exchange P ctx amount authority s body s' ->
  decode_envelope body = (br, None) ->
  BaseResponse.Errors br = "[]" \/ BaseResponse.Errors br = "{}"
  \/ errors_absent body ->
  json.Unmarshal PaymentVerificationResponse.ty pkg (BaseResponse.Data br)
    PaymentVerificationResponse.zero = (v, None) ->
  CheckPaymentStatus P ctx amount authority s = ((classify v, None), s').
Proof.
  intros Hx Hd He Hv.
  rewrite CheckPaymentStatus_unfold, (VerifyPayment_exchange _ _ _ _ _ _ _ Hx).
  rewrite (decode_payload_data _ _ _ _ (checkResponse_classified_empty _ _ Hd He)).
  now rewrite Hv.
Qed.

Lemma CheckPaymentStatus_end_to_end_witness :
  let P := canned (j "{'data':{'code':100,'message':'Paid','card_hash':'1EBE3EBEBE35C7EC','card_pan':'502229******5995','ref_id':201,'fee_type':'Merchant','fee':0},'errors':[]}") in
  CheckPaymentStatus P tt 10000 "A36"
    (@mkState P (NewWithMode "merchant" true) 0%nat)
  = ((PaymentStatus.mk true false 201 "Paid", None),
     @mkState P (NewWithMode "merchant" true) 1%nat).
Proof.
  intros P.
  refine (CheckPaymentStatus_end_to_end P tt 10000 "A36" _ _
            (j "{'data':{'code':100,'message':'Paid','card_hash':'1EBE3EBEBE35C7EC','card_pan':'502229******5995','ref_id':201,'fee_type':'Merchant','fee':0},'errors':[]}")
            (BaseResponse.mk
               (j "{'code':100,'message':'Paid','card_hash':'1EBE3EBEBE35C7EC','card_pan':'502229******5995','ref_id':201,'fee_type':'Merchant','fee':0}")
               "[]")
            (PaymentVerificationResponse.mk 100 "Paid" "1EBE3EBEBE35C7EC"
               "502229******5995" 201 "Merchant" 0)
            _ _ _ _).
  - exists "{}", ("https://sandbox.zarinpal.com/pg/v4/payment/verify.json", []),
      (j "{'data':{'code':100,'message':'Paid','card_hash':'1EBE3EBEBE35C7EC','card_pan':'502229******5995','ref_id':201,'fee_type':'Merchant','fee':0},'errors':[]}"),
      1%nat, 1%nat.
    repeat split.
  - reflexivity.
  - left; reflexivity.
  - reflexivity.
Defined.

(** X19: the code of the verification response is the one that the members
    of the data object give, 0 when none of them selects the field [code]:
    a data object without a code is then reported by [CheckPaymentStatus]
    as a failed payment, with a nil error. *)
Theorem CheckPaymentStatus_missing_code (P : Platform) (ctx : Context P)
  (amount : Z) (authority : string) (s s' : State P) (body raw text : string)
  (ms : list (string * json.value)) (v : PaymentVerificationResponse.t) :
  verify_exchange P ctx amount authority s body s' ->
  checkResponse body = (raw, None) ->
  json.parse raw = Some (json.Object text ms) ->
  json.Unmarshal PaymentVerificationResponse.ty pkg raw
    PaymentVerificationResponse.zero = (v, None) ->
  PaymentVerificationResponse.Code v = verification_code_of ms
  /\ (Forall (fun kv => selects PaymentVerificationResponse.ty "code" (fst kv)
                        = false) ms ->
      CheckPaymentStatus P ctx amount authority s
      = ((PaymentStatus.mk false false
            (PaymentVerificationResponse.RefID v)
            (PaymentVerificationResponse.Message v), None), s')).
Proof.
  intros Hx Hc Hp Hv.
  assert (Hcode : PaymentVerificationResponse.Code v = verification_code_of ms).
  { unfold json.Unmarshal in Hv. rewrite Hp in Hv. simpl in Hv.
    apply store_members_verification_code in Hv. exact Hv. }
  split; [exact Hcode |]. intros Hall.
  rewrite CheckPaymentStatus_unfold, (VerifyPayment_exchange _ _ _ _ _ _ _ Hx).
  rewrite (decode_payload_data _ _ _ _ Hc), Hv. cbn [lift_json fst snd option_map].
  unfold classify. rewrite Hcode.
  unfold verification_code_of.
  rewrite (verification_code_not_selected _ Hall). reflexivity.
Qed.

Lemma CheckPaymentStatus_missing_code_witness :
  let P := canned (j "{'data':{'message':'Paid','ref_id':201},'errors':[]}") in
  CheckPaymentStatus P tt 10000 "A36"
    (@mkState P (NewWithMode "merchant" true) 0%nat)
  = ((PaymentStatus.mk false false 201 "Paid", None),
     @mkState P (NewWithMode "merchant" true) 1%nat).
Proof.
  intros P.
  refine (proj2 (CheckPaymentStatus_missing_code P tt 10000 "A36" _ _
                   (j "{'data':{'message':'Paid','ref_id':201},'errors':[]}")
                   (j "{'message':'Paid','ref_id':201}")
                   (j "{'message':'Paid','ref_id':201}")
                   [("message", json.Str "Paid"); ("ref_id", json.Number "201")]
                   (PaymentVerificationResponse.mk 0 "Paid" "" "" 201 "" 0)
                   _ _ _ _) _).
  - exists "{}", ("https://sandbox.zarinpal.com/pg/v4/payment/verify.json", []),
      (j "{'data':{'message':'Paid','ref_id':201},'errors':[]}"),
      1%nat, 1%nat.
    repeat split.
  - reflexivity.
  - reflexivity.
  - reflexivity.
  - repeat constructor.
Defined.

(** X20: on any client, two authorities have the same payment URL exactly
    when they are the same authority; on a client made by [NewWithMode] the
    URL is the start-pay path on the host of the mode, followed by the
    authority. *)
Theorem GetPaymentURL_injective (P : Platform) (s : State P)
  (authority authority' : string) :
  (fst (GetPaymentURL P authority s) = fst (GetPaymentURL P authority' s)
   <-> authority = authority')
  /\ forall merchantID sandbox w,
       fst (GetPaymentURL P authority
              (mkState (NewWithMode merchantID sandbox) w))
       = "https://" ++ (if sandbox then "sandbox" else "payment")
         ++ ".zarinpal.com/pg/StartPay/" ++ authority.
Proof.
  split.
  - cbv [GetPaymentURL bind load ret]. cbn [fst]. split.
    + apply append_cancel_l.
    + now intros ->.
  - intros merchantID [] w; reflexivity.
Qed.
